(** * Delivery-driver shift tracker: a shallow embedding of [main.js]

    The repository holds two copies of the program; the embedding
    follows the later one, in which functions 7 to 9 are written.  The
    functions both copies share are the same in both.

    The development follows the source file function by function:
    the string primitives the code relies on, the time codec
    ([parseToSeconds], [formatToTime]), the idle-time loop, the quota
    test, the flat-file record store and the monthly queries.

    Conventions of the embedding.
    - JavaScript strings are [string]s of 8-bit characters; the text is
      taken to be ASCII, so [trim] strips the ASCII white space
      characters and [toLowerCase] folds [A-Z].
    - JavaScript numbers are [number]: either [NaN] or an integer
      [Num z].  Every number the code computes from a well-formed record
      is a small integer, and [NaN] is what it computes from anything
      else.
    - The file system is a finite map from paths to contents. *)

From Stdlib Require Import ZArith Lia Ascii String List.
From Stdlib Require Import DecimalString DecimalN.
From Stdlib Require Import Sorted.
From stdpp Require Import base option list strings gmap.

Open Scope string_scope.
Open Scope Z_scope.

#[global] Arguments String.append : simpl nomatch.

(** ** JavaScript values used by the program *)

Inductive number : Type :=
| NaN
| Num (z : Z).

Inductive jsval : Type :=
| JUndefined
| JStr (s : string)
| JBool (b : bool)
| JNum (n : number).

Module JS.

(** *** Numbers: arithmetic and comparison with [NaN] *)

Definition lift2 (f : Z -> Z -> Z) (a b : number) : number :=
  match a, b with
  | Num x, Num y => Num (f x y)
  | _, _ => NaN
  end.

Definition add := lift2 Z.add.
Definition sub := lift2 Z.sub.
Definition mul := lift2 Z.mul.

(** Every comparison with [NaN] is false. *)
Definition cmp2 (f : Z -> Z -> bool) (a b : number) : bool :=
  match a, b with
  | Num x, Num y => f x y
  | _, _ => false
  end.

Definition lt := cmp2 Z.ltb.
Definition le := cmp2 Z.leb.
Definition ge := cmp2 Z.geb.
Definition gt := cmp2 Z.gtb.
(** [a === b] on numbers. *)
Definition seq := cmp2 Z.eqb.
(** [a !== b] on numbers: true as soon as one side is [NaN]. *)
Definition sne (a b : number) : bool := negb (seq a b).

(** [Math.floor(a / d)] for a positive integer constant [d]. *)
Definition floorDiv (a : number) (d : Z) : number :=
  match a with Num x => Num (x / d) | NaN => NaN end.

(** [a % d]: the remainder takes the sign of the dividend. *)
Definition rem (a : number) (d : Z) : number :=
  match a with Num x => Num (Z.rem x d) | NaN => NaN end.

(** *** Characters *)

Definition isWhiteSpace (c : ascii) : bool :=
  match c with
  | "009" | "010" | "011" | "012" | "013" | " " => true
  | _ => false
  end%char.

Definition lowerChar (c : ascii) : ascii :=
  let n := N_of_ascii c in
  if ((65 <=? n) && (n <=? 90))%N then ascii_of_N (n + 32) else c.

Definition isDigit (c : ascii) : bool :=
  let n := N_of_ascii c in ((48 <=? n) && (n <=? 57))%N.

(** *** Strings *)

Fixpoint mapChars (f : ascii -> ascii) (s : string) : string :=
  match s with
  | EmptyString => EmptyString
  | String c r => String (f c) (mapChars f r)
  end.

Definition toLowerCase : string -> string := mapChars lowerChar.

Fixpoint allChars (p : ascii -> bool) (s : string) : bool :=
  match s with
  | EmptyString => true
  | String c r => p c && allChars p r
  end.

Fixpoint trimStart (s : string) : string :=
  match s with
  | EmptyString => EmptyString
  | String c r => if isWhiteSpace c then trimStart r else s
  end.

Fixpoint trimEnd (s : string) : string :=
  match s with
  | EmptyString => EmptyString
  | String c r =>
      match trimEnd r with
      | EmptyString => if isWhiteSpace c then EmptyString else String c EmptyString
      | r' => String c r'
      end
  end.

Definition trim (s : string) : string := trimEnd (trimStart s).

(** [s.split(sep)] for a one-character separator: never empty, and
    [""] splits to [[""]]. *)
Fixpoint split (sep : ascii) (s : string) : list string :=
  match s with
  | EmptyString => [EmptyString]
  | String c r =>
      if Ascii.eqb c sep then EmptyString :: split sep r
      else match split sep r with
           | [] => [String c EmptyString]
           | h :: t => String c h :: t
           end
  end.

(** The one-character string of a line feed. *)
Definition newline : string := String "010" EmptyString.

(** [parts.join(sep)] *)
Definition join (sep : string) (parts : list string) : string :=
  String.concat sep parts.

Fixpoint repeatChar (c : ascii) (n : nat) : string :=
  match n with
  | O => EmptyString
  | S k => String c (repeatChar c k)
  end.

(** [s.padStart(width, c)] *)
Definition padStart (width : nat) (c : ascii) (s : string) : string :=
  repeatChar c (width - String.length s) ++ s.

(** [.filter(Boolean)] on an array of strings drops the empty ones. *)
Definition nonEmpty (s : string) : bool :=
  match s with EmptyString => false | _ => true end.

(** *** Conversions *)

Definition digits (z : Z) : string :=
  NilEmpty.string_of_uint (N.to_uint (Z.to_N z)).

(** [String(n)] and [`${n}`] for a number. *)
Definition numberToString (n : number) : string :=
  match n with
  | NaN => "NaN"
  | Num z => if z <? 0 then String "-" (digits (- z)) else digits z
  end.

(** [Number(s)].  White space around the literal is ignored and the
    empty literal is [0]; a run of decimal digits is its value.
    Signs, fractions, exponents and radix prefixes do not occur in
    the record format and are read as [NaN] here. *)
Definition Number (s : string) : number :=
  match NilEmpty.uint_of_string (trim s) with
  | Some d => Num (Z.of_N (N.of_uint d))
  | None => NaN
  end.

(** [Number(x)] for a possibly missing array element. *)
Definition NumberOpt (o : option string) : number :=
  match o with
  | Some s => Number s
  | None => NaN
  end.

(** [`${v}`] *)
Definition toString (v : jsval) : string :=
  match v with
  | JUndefined => "undefined"
  | JStr s => s
  | JBool true => "true"
  | JBool false => "false"
  | JNum n => numberToString n
  end.

(** [parts[i]] as a value: out of range is [undefined]. *)
Definition index (parts : list string) (i : nat) : jsval :=
  match parts !! i with
  | Some s => JStr s
  | None => JUndefined
  end.

End JS.

(** ** The [Date] object

    A [Date] is its time value: milliseconds since 1970-01-01T00:00Z, or
    [NaN] for an invalid date.  The calendar functions are the ones of
    ECMA-262 (Day, DayFromYear, InLeapYear, MonthFromTime, WeekDay,
    MakeDay).  [parse] reads the date-only form [yyyy-mm-dd], which the
    language fixes to midnight UTC; every other spelling is an invalid
    date in this model.  As in the V8 engine, a month in 1..12 and a
    day in 1..31 are accepted, and a day past the end of its month rolls
    over into the next one. *)

Module Date.

Definition msPerDay : Z := 86400000.

Definition Day (t : Z) : Z := t / msPerDay.

Definition DayFromYear (y : Z) : Z :=
  365 * (y - 1970) + (y - 1969) / 4 - (y - 1901) / 100 + (y - 1601) / 400.

Definition InLeapYear (y : Z) : bool :=
  if negb (y mod 4 =? 0) then false
  else if negb (y mod 100 =? 0) then true
  else if negb (y mod 400 =? 0) then false
  else true.

Definition leapDays (y : Z) : Z := if InLeapYear y then 1 else 0.

(** First day, within its year, of month [m] (January is 0). *)
Definition monthStart (leap m : Z) : Z :=
  match m with
  | 0 => 0
  | 1 => 31
  | 2 => 59 + leap
  | 3 => 90 + leap
  | 4 => 120 + leap
  | 5 => 151 + leap
  | 6 => 181 + leap
  | 7 => 212 + leap
  | 8 => 243 + leap
  | 9 => 273 + leap
  | 10 => 304 + leap
  | 11 => 334 + leap
  | _ => 365 + leap
  end.

(** [MakeDay(year, month, date)] for a month in 0..11. *)
Definition MakeDay (y m d : Z) : Z :=
  DayFromYear y + monthStart (leapDays y) m + d - 1.

(** The year of a day number: the largest [y] with
    [DayFromYear y <= day], found from the mean year length. *)
Definition YearFromDay (day : Z) : Z :=
  let y0 := 1970 + (day * 400) / 146097 in
  if day <? DayFromYear y0 then y0 - 1
  else if DayFromYear (y0 + 1) <=? day then y0 + 1
  else y0.

Definition DayWithinYear (day : Z) : Z := day - DayFromYear (YearFromDay day).

Definition MonthFromDay (day : Z) : Z :=
  let leap := leapDays (YearFromDay day) in
  let n := DayWithinYear day in
  if n <? 31 then 0
  else if n <? 59 + leap then 1
  else if n <? 90 + leap then 2
  else if n <? 120 + leap then 3
  else if n <? 151 + leap then 4
  else if n <? 181 + leap then 5
  else if n <? 212 + leap then 6
  else if n <? 243 + leap then 7
  else if n <? 273 + leap then 8
  else if n <? 304 + leap then 9
  else if n <? 334 + leap then 10
  else 11.

Definition MonthFromTime (t : Z) : Z := MonthFromDay (Day t).

Definition WeekDay (t : Z) : Z := (Day t + 4) mod 7.

(** *** Reading [yyyy-mm-dd] *)

Definition digitVal (c : ascii) : option Z :=
  if JS.isDigit c then Some (Z.of_N (N_of_ascii c) - 48) else None.

Definition num2 (a b : ascii) : option Z :=
  x ← digitVal a; y ← digitVal b; Some (10 * x + y).

Definition num4 (a b c d : ascii) : option Z :=
  x ← num2 a b; y ← num2 c d; Some (100 * x + y).

(** The year, month (1..12) and day (1..31) a date string spells. *)
Definition fields (s : string) : option (Z * Z * Z) :=
  match s with
  | String y1 (String y2 (String y3 (String y4 (String dash1
      (String m1 (String m2 (String dash2
         (String d1 (String d2 EmptyString))))))))) =>
      if Ascii.eqb dash1 "-" && Ascii.eqb dash2 "-" then
        y ← num4 y1 y2 y3 y4;
        m ← num2 m1 m2;
        d ← num2 d1 d2;
        if (1 <=? m) && (m <=? 12) && (1 <=? d) && (d <=? 31)
        then Some (y, m, d) else None
      else None
  | _ => None
  end.

(** [Date.parse(s)] *)
Definition parse (s : string) : number :=
  match fields s with
  | Some (y, m, d) => Num (MakeDay y (m - 1) d * msPerDay)
  | None => NaN
  end.

(** [new Date(v)] for a string or a missing property. *)
Definition new (v : jsval) : number :=
  match v with
  | JStr s => parse s
  | _ => NaN
  end.

Definition getUTCMonth (t : number) : number :=
  match t with Num z => Num (MonthFromTime z) | NaN => NaN end.

Definition getUTCDay (t : number) : number :=
  match t with Num z => Num (WeekDay z) | NaN => NaN end.

(** [getMonth()] reads the month on the host's local calendar:
    [LocalTime(t) = t + LocalTZA(t)], the host's offset from UTC in
    milliseconds at time [t]. *)
Definition getMonth (LocalTZA : Z -> Z) (t : number) : number :=
  match t with Num z => Num (MonthFromTime (z + LocalTZA z)) | NaN => NaN end.

End Date.

(** ** Configuration constants *)

Definition DAY_SECONDS : Z := 24 * 3600.

(** [DAYS[name]]: the weekday number of a lower-case day name.  A
    name that is no key of the table reads as [undefined]; a name the
    object inherits, such as [constructor], reads as a value that is
    not a number, which no weekday equals either: both are [None]. *)
Definition DAYS (name : string) : option Z :=
  if String.eqb name "sunday" then Some 0
  else if String.eqb name "monday" then Some 1
  else if String.eqb name "tuesday" then Some 2
  else if String.eqb name "wednesday" then Some 3
  else if String.eqb name "thursday" then Some 4
  else if String.eqb name "friday" then Some 5
  else if String.eqb name "saturday" then Some 6
  else None.

Module DELIVERY_CONFIG.
Module HOURS.
Definition START : Z := 8 * 3600.
Definition END : Z := 22 * 3600.
End HOURS.
Module DAILY_MINIMUM.
Definition NORMAL : Z := 8 * 3600 + 24 * 60.
Definition EID : Z := 6 * 3600.
End DAILY_MINIMUM.
Module EID_DATE.
Definition START : number := Date.parse "2025-04-10".
Definition END : number := Date.parse "2025-04-30".
End EID_DATE.
End DELIVERY_CONFIG.

(** ** Helper methods *)

Definition parseToSeconds (str : string) : number :=
  let str := JS.toLowerCase (JS.trim str) in
  let parts := JS.split " " str in
  let time := default "" (parts !! 0%nat) in
  let modifier := parts !! 1%nat in
  let nums := map JS.Number (JS.split ":" time) in
  let hours := default NaN (nums !! 0%nat) in
  let minutes := default NaN (nums !! 1%nat) in
  let seconds := default NaN (nums !! 2%nat) in
  let hours :=
    match modifier with
    | Some m =>
        if JS.nonEmpty m then
          let hours :=
            if String.eqb m "pm" && JS.sne hours (Num 12)
            then JS.add hours (Num 12) else hours in
          if String.eqb m "am" && JS.seq hours (Num 12)
          then Num 0 else hours
        else hours
    | None => hours
    end in
  JS.add (JS.add (JS.mul hours (Num 3600)) (JS.mul minutes (Num 60))) seconds.

Definition formatToTime (seconds : number) : string :=
  let seconds := if JS.lt seconds (Num 0) then Num 0 else seconds in
  let h := JS.floorDiv seconds 3600 in
  let m := JS.floorDiv (JS.rem seconds 3600) 60 in
  let s := JS.rem seconds 60 in
  JS.numberToString h ++ ":" ++ JS.padStart 2 "0" (JS.numberToString m)
    ++ ":" ++ JS.padStart 2 "0" (JS.numberToString s).

(** [readLines] applied to the text of a file. *)
Definition linesOf (content : string) : list string :=
  filter (fun l => JS.nonEmpty l = true) (JS.split "010" (JS.trim content)).

(** ** Function 1: [getShiftDuration] *)

Definition getShiftDuration (startTime endTime : string) : string :=
  let startSeconds := parseToSeconds startTime in
  let endSeconds := parseToSeconds endTime in
  let endSeconds :=
    if JS.lt endSeconds startSeconds
    then JS.add endSeconds (Num DAY_SECONDS) else endSeconds in
  formatToTime (JS.sub endSeconds startSeconds).

(** ** Function 2: [getIdleTime] *)

(** One pass through the body of the [while] loop, from the state
    [(idleTime, currentTime)]. *)
Definition idleStep (endSeconds : Z) (st : Z * Z) : Z * Z :=
  let '(idleTime, currentTime) := st in
  let currentDayStart := currentTime / DAY_SECONDS * DAY_SECONDS in
  let currentDayEnd := currentDayStart + DAY_SECONDS in
  let segmentEnd := Z.min endSeconds currentDayEnd in
  let deliveryStart := currentDayStart + DELIVERY_CONFIG.HOURS.START in
  let deliveryEnd := currentDayStart + DELIVERY_CONFIG.HOURS.END in
  let idleTime :=
    if currentTime <? deliveryStart
    then idleTime + Z.max 0 (Z.min segmentEnd deliveryStart - currentTime)
    else idleTime in
  let idleTime :=
    if segmentEnd >? deliveryEnd
    then idleTime + Z.max 0 (segmentEnd - Z.max currentTime deliveryEnd)
    else idleTime in
  (idleTime, segmentEnd).

(** The loop, run for at most [fuel] passes. *)
Fixpoint idleLoop (fuel : nat) (endSeconds : Z) (st : Z * Z) : Z * Z :=
  match fuel with
  | O => st
  | S fuel' =>
      if snd st <? endSeconds
      then idleLoop fuel' endSeconds (idleStep endSeconds st)
      else st
  end.

(** Each pass ends on the next midnight or on [endSeconds], so one pass
    per calendar day the interval touches is enough
    (see [idleLoop_exits]). *)
Definition idleFuel (startSeconds endSeconds : Z) : nat :=
  Z.to_nat (endSeconds / DAY_SECONDS - startSeconds / DAY_SECONDS + 1).

Definition idleSeconds (startSeconds endSeconds : number) : number :=
  let endSeconds :=
    if JS.lt endSeconds startSeconds
    then JS.add endSeconds (Num DAY_SECONDS) else endSeconds in
  match startSeconds, endSeconds with
  | Num s, Num e => Num (fst (idleLoop (idleFuel s e) e (0, s)))
  | _, _ => Num 0
  end.

Definition getIdleTime (startTime endTime : string) : string :=
  let startSeconds := parseToSeconds startTime in
  let endSeconds := parseToSeconds endTime in
  formatToTime (idleSeconds startSeconds endSeconds).

(** ** Function 3: [getActiveTime] *)

Definition getActiveTime (shiftDuration idleTime : string) : string :=
  formatToTime (JS.sub (parseToSeconds shiftDuration) (parseToSeconds idleTime)).

(** ** Function 4: [metQuota] *)

Definition isEid (d : number) : bool :=
  JS.ge d DELIVERY_CONFIG.EID_DATE.START && JS.le d DELIVERY_CONFIG.EID_DATE.END.

Definition metQuota (date activeTime : string) : bool :=
  let currentDate := Date.new (JStr date) in
  JS.ge (parseToSeconds activeTime)
        (Num (if isEid currentDate
              then DELIVERY_CONFIG.DAILY_MINIMUM.EID
              else DELIVERY_CONFIG.DAILY_MINIMUM.NORMAL)).

(** ** The file system and the record store *)

Inductive error : Type :=
| ENOENT (path : string)
| TypeError.

Inductive outcome (A : Type) : Type :=
| Returns (a : A)
| Throws (e : error).
Arguments Returns {A} a.
Arguments Throws {A} e.

Abbreviation fileSystem := (gmap string string).

Module fs.
Definition existsSync (disk : fileSystem) (path : string) : bool :=
  bool_decide (is_Some (disk !! path)).

Definition readFileSync (disk : fileSystem) (path : string) : outcome string :=
  match disk !! path with
  | Some content => Returns content
  | None => Throws (ENOENT path)
  end.

Definition writeFileSync (disk : fileSystem) (path content : string) : fileSystem :=
  <[path := content]> disk.
End fs.

Definition readLines (disk : fileSystem) (filePath : string) : outcome (list string) :=
  match fs.readFileSync disk filePath with
  | Returns content => Returns (linesOf content)
  | Throws e => Throws e
  end.

(** The argument of [addShiftRecord]. *)
Record ShiftObj : Type := mkShiftObj {
  objDriverID : string;
  objDriverName : string;
  objDate : string;
  objStartTime : string;
  objEndTime : string
}.

(** A record object as the code holds it in memory.  A property the
    object does not have reads as [JUndefined]. *)
Module Rec.
Record t : Type := mk {
  driverID : jsval;
  driverName : jsval;
  date : jsval;
  startTime : jsval;
  endTime : jsval;
  shiftDuration : jsval;
  idleTime : jsval;
  activeTime : jsval;
  metQuota : jsval;
  hasBonus : jsval
}.
End Rec.

(** What [addShiftRecord] returns: the empty object or the new record. *)
Inductive addResult : Type :=
| EmptyObject
| NewRecord (r : Rec.t).

(** The object built from a line of the file: five properties. *)
Definition recordOfLine (line : string) : Rec.t :=
  let parts := JS.split "," line in
  Rec.mk (JS.index parts 0) (JS.index parts 1) (JS.index parts 2)
         (JS.index parts 3) (JS.index parts 4)
         JUndefined JUndefined JUndefined JUndefined JUndefined.

(** [r.driverID === shiftObj.driverID && r.date === shiftObj.date] *)
Definition jsStrictEqStr (v : jsval) (s : string) : bool :=
  match v with
  | JStr x => String.eqb x s
  | _ => false
  end.

Definition sameKey (shiftObj : ShiftObj) (r : Rec.t) : bool :=
  jsStrictEqStr (Rec.driverID r) (objDriverID shiftObj)
  && jsStrictEqStr (Rec.date r) (objDate shiftObj).

(** [Array.prototype.sort] with a comparator: a stable sort.  An
    element moves behind another only when the comparator is positive;
    a [NaN] comparison counts as zero.  When every date parses the
    comparator is a total preorder, and what a stable sort returns does
    not depend on how it sorts; the model sorts by insertion. *)
Section Sort.
Context {A : Type} (cmp : A -> A -> number).

Fixpoint insertSorted (x : A) (l : list A) : list A :=
  match l with
  | [] => [x]
  | y :: l' =>
      if JS.gt (cmp x y) (Num 0) then y :: insertSorted x l' else x :: l
  end.

Definition sort (l : list A) : list A := foldr insertSorted [] l.
End Sort.

Definition byDate (a b : Rec.t) : number :=
  JS.sub (Date.new (Rec.date a)) (Date.new (Rec.date b)).

(** The template literal that writes one record. *)
Definition lineOfRecord (r : Rec.t) : string :=
  JS.join ","
    [JS.toString (Rec.driverID r); JS.toString (Rec.driverName r);
     JS.toString (Rec.date r); JS.toString (Rec.startTime r);
     JS.toString (Rec.endTime r); JS.toString (Rec.shiftDuration r);
     JS.toString (Rec.idleTime r); JS.toString (Rec.activeTime r);
     JS.toString (Rec.metQuota r); JS.toString (Rec.hasBonus r)].

(** ** Function 5: [addShiftRecord] *)

Definition newRecordOf (shiftObj : ShiftObj) : Rec.t :=
  let shiftDuration := getShiftDuration (objStartTime shiftObj) (objEndTime shiftObj) in
  let idleTime := getIdleTime (objStartTime shiftObj) (objEndTime shiftObj) in
  let activeTime := getActiveTime shiftDuration idleTime in
  let metQuotaFlag := metQuota (objDate shiftObj) activeTime in
  Rec.mk (JStr (objDriverID shiftObj)) (JStr (objDriverName shiftObj))
         (JStr (objDate shiftObj)) (JStr (objStartTime shiftObj))
         (JStr (objEndTime shiftObj))
         (JStr shiftDuration) (JStr idleTime) (JStr activeTime)
         (JBool metQuotaFlag) (JBool false).

Definition addShiftRecord (disk : fileSystem) (textFile : string)
    (shiftObj : ShiftObj) : outcome addResult * fileSystem :=
  let disk :=
    if negb (fs.existsSync disk textFile)
    then fs.writeFileSync disk textFile "" else disk in
  match readLines disk textFile with
  | Throws e => (Throws e, disk)
  | Returns lines =>
      let records := map recordOfLine lines in
      let duplicate := existsb (sameKey shiftObj) records in
      if duplicate then (Returns EmptyObject, disk)
      else
        let newRecord := newRecordOf shiftObj in
        let records := (records ++ [newRecord])%list in
        let records := sort byDate records in
        let fileContent := JS.join JS.newline (map lineOfRecord records) in
        (Returns (NewRecord newRecord), fs.writeFileSync disk textFile fileContent)
  end.

(** ** Function 6: [setBonus] *)

Definition boolToString (b : bool) : string := if b then "true" else "false".

Definition setBonusLine (driverID date : string) (newValue : bool)
    (line : string) : string * bool :=
  let parts := JS.split "," line in
  if (length parts <? 10)%nat then (line, false)
  else
    if jsStrictEqStr (JS.index parts 0) driverID
       && jsStrictEqStr (JS.index parts 2) date
    then (JS.join "," (<[9%nat := boolToString newValue]> parts), true)
    else (JS.join "," parts, false).

Definition setBonus (disk : fileSystem) (textFile driverID date : string)
    (newValue : bool) : outcome unit * fileSystem :=
  if negb (fs.existsSync disk textFile) then (Returns tt, disk)
  else
    match readLines disk textFile with
    | Throws e => (Throws e, disk)
    | Returns lines =>
        let results := map (setBonusLine driverID date newValue) lines in
        let updated := existsb snd results in
        let updatedLines := map fst results in
        if updated
        then (Returns tt, fs.writeFileSync disk textFile (JS.join JS.newline updatedLines))
        else (Returns tt, disk)
    end.

(** ** Functions 7 to 10, which depend on the host's time zone through
    [getMonth] *)

Section Host.

(** The host's offset from UTC, in milliseconds, at a given time. *)
Variable LocalTZA : Z -> Z.

(** *** Function 7: [countBonusPerMonth] *)

(** One pass through the [for] loop, from [(driverExists, bonusCount)]. *)
Definition countBonusStep (driverID : string) (targetMonth : number)
    (st : bool * Z) (line : string) : bool * Z :=
  let '(driverExists, bonusCount) := st in
  let parts := JS.split "," (JS.trim line) in
  if (length parts <? 10)%nat then st
  else
    let recordDriverID := JS.index parts 0 in
    let recordDate := JS.index parts 2 in
    let hasBonus := jsStrictEqStr (JS.index parts 9) "true" in
    if negb (jsStrictEqStr recordDriverID driverID) || negb hasBonus then st
    else
      let recordMonth :=
        JS.add (Date.getMonth LocalTZA (Date.new recordDate)) (Num 1) in
      if JS.seq recordMonth targetMonth && hasBonus
      then (true, bonusCount + 1)
      else (true, bonusCount).

Definition countBonusPerMonth (disk : fileSystem)
    (textFile driverID month : string) : outcome Z :=
  if negb (fs.existsSync disk textFile) then Returns (-1)
  else
    match readLines disk textFile with
    | Throws e => Throws e
    | Returns lines =>
        let targetMonth := JS.Number month in
        let '(driverExists, bonusCount) :=
          fold_left (countBonusStep driverID targetMonth) lines (false, 0) in
        Returns (if driverExists then bonusCount else -1)
    end.

(** *** Function 8: [getTotalActiveHoursPerMonth] *)

Definition totalActiveStep (driverID : string) (month : number)
    (totalSeconds : number) (line : string) : number :=
  let parts := JS.split "," line in
  if (length parts <? 10)%nat then totalSeconds
  else
    let recordDriverID := JS.index parts 0 in
    let recordDate := JS.index parts 2 in
    let activeTime := default "" (parts !! 7%nat) in
    if negb (jsStrictEqStr recordDriverID driverID) then totalSeconds
    else
      let recordMonth :=
        JS.add (Date.getMonth LocalTZA (Date.new recordDate)) (Num 1) in
      if JS.seq recordMonth month
      then JS.add totalSeconds (parseToSeconds activeTime)
      else totalSeconds.

(** The first statement computes [formatToTime(0)] and drops it: there
    is no [return], so control reaches [readLines] also when the file
    does not exist. *)
Definition getTotalActiveHoursPerMonth (disk : fileSystem)
    (textFile driverID : string) (month : number) : outcome string :=
  let _ := if negb (fs.existsSync disk textFile)
           then formatToTime (Num 0) else "" in
  match readLines disk textFile with
  | Throws e => Throws e
  | Returns lines =>
      Returns (formatToTime
                 (fold_left (totalActiveStep driverID month) lines (Num 0)))
  end.

End Host.

(** ** Function 9: [getRequiredHoursPerMonth] *)

(** The [for] loop of [getDayOff] stops at the first line of the driver;
    [parts[1].trim()] throws when that line has a single field. *)
Fixpoint getDayOffLoop (driverID : string) (rateLines : list string) : outcome string :=
  match rateLines with
  | [] => Returns ""
  | line :: rest =>
      let parts := JS.split "," line in
      if jsStrictEqStr (JS.index parts 0) driverID then
        match parts !! 1%nat with
        | Some p => Returns (JS.toLowerCase (JS.trim p))
        | None => Throws TypeError
        end
      else getDayOffLoop driverID rest
  end.

Definition getDayOff (disk : fileSystem) (rateFile driverID : string) : outcome string :=
  match readLines disk rateFile with
  | Throws e => Throws e
  | Returns rateLines => getDayOffLoop driverID rateLines
  end.

(** [uniqueDates.add(x)] on a [Set] kept in insertion order. *)
Definition setAdd (s : list string) (x : string) : list string :=
  if bool_decide (x ∈ s) then s else (s ++ [x])%list.

Definition uniqueDatesStep (targetMonth : number) (driverID : string)
    (uniqueDates : list string) (line : string) : list string :=
  let parts := JS.split "," line in
  if (length parts <? 10)%nat then uniqueDates
  else
    let recordDriverID := JS.index parts 0 in
    let recordDate := default "" (parts !! 2%nat) in
    if negb (jsStrictEqStr recordDriverID driverID) then uniqueDates
    else
      let dateObj := Date.parse recordDate in
      if JS.seq (JS.add (Date.getUTCMonth dateObj) (Num 1)) targetMonth
      then setAdd uniqueDates recordDate
      else uniqueDates.

Definition getUniqueDates (disk : fileSystem) (textFile : string)
    (targetMonth : number) (driverID : string) : outcome (list string) :=
  match readLines disk textFile with
  | Throws e => Throws e
  | Returns shiftLines =>
      Returns (fold_left (uniqueDatesStep targetMonth driverID) shiftLines [])
  end.

Definition requiredStep (dayOffNum : number) (totalRequiredSeconds : Z)
    (dateStr : string) : Z :=
  let d := Date.parse dateStr in
  if JS.seq (Date.getUTCDay d) dayOffNum then totalRequiredSeconds
  else if isEid d
       then totalRequiredSeconds + DELIVERY_CONFIG.DAILY_MINIMUM.EID
       else totalRequiredSeconds + DELIVERY_CONFIG.DAILY_MINIMUM.NORMAL.

Definition getTotalRequiredSeconds (uniqueDates : list string) (dayOffNum : number) : Z :=
  fold_left (requiredStep dayOffNum) uniqueDates 0.

(** [bonusCount] and [month] are numbers (the header comment of the
    function), so [Number(x)] leaves them as they are. *)
Definition getRequiredHoursPerMonth (disk : fileSystem)
    (textFile rateFile : string) (bonusCount : number)
    (driverID : string) (month : number) : outcome string :=
  if negb (fs.existsSync disk textFile) || negb (fs.existsSync disk rateFile)
  then Returns (formatToTime (Num 0))
  else
    match getDayOff disk rateFile driverID with
    | Throws e => Throws e
    | Returns dayOffStr =>
        let dayOffNum := match DAYS dayOffStr with
                         | Some n => Num n
                         | None => Num (-1)
                         end in
        match getUniqueDates disk textFile month driverID with
        | Throws e => Throws e
        | Returns uniqueDates =>
            let totalRequiredSeconds :=
              Num (getTotalRequiredSeconds uniqueDates dayOffNum) in
            let validBonus := match bonusCount with
                              | NaN => Num 0
                              | _ => bonusCount
                              end in
            let totalRequiredSeconds :=
              JS.sub totalRequiredSeconds
                     (JS.mul (JS.mul validBonus (Num 2)) (Num 3600)) in
            let totalRequiredSeconds :=
              if JS.lt totalRequiredSeconds (Num 0) then Num 0
              else totalRequiredSeconds in
            Returns (formatToTime totalRequiredSeconds)
        end
    end.

(** ** Function 10: [getNetPay]

    The body of the function is empty, so every call returns
    [undefined]. *)
Definition getNetPay (disk : fileSystem)
    (driverID actualHours requiredHours rateFile : string) : jsval :=
  JUndefined.

(** * Vocabulary of the specification

    The notions the properties below are stated with: the delivery
    window, the holiday window, the records a query reads, the key of
    a stored line, and the line format of the store. *)

(** ** Characters and lines *)

(** [c] is not the separator [sep]. *)
Definition isNot (sep : ascii) (c : ascii) : bool := negb (Ascii.eqb c sep).

(** The string does not start with white space. *)
Definition headOK (s : string) : bool :=
  match s with
  | EmptyString => true
  | String c _ => negb (JS.isWhiteSpace c)
  end.

(** Characters of a formatted time: digits and the colon. *)
Definition timeChar (c : ascii) : bool :=
  JS.isDigit c || Ascii.eqb c ":".

(** The same with the letters of [NaN] and the sign of a negative
    number: every character [formatToTime] can print. *)
Definition fmtChar (c : ascii) : bool :=
  timeChar c || Ascii.eqb c "N" || Ascii.eqb c "a" || Ascii.eqb c "-".

(** The field holds no comma, no line feed. *)
Definition noComma (s : string) : bool := JS.allChars (isNot ",") s.
Definition noNewline (s : string) : bool := JS.allChars (isNot "010") s.

(** Trimming leaves the end of the string alone, whatever comes
    before it. *)
Definition endOK (s : string) : Prop :=
  forall p, JS.trimEnd (p ++ s) = p ++ s.

(** A line that [readLines] gives back as it was written: no line
    feed, no white space at its ends, not empty. *)
Definition tidyLine (s : string) : Prop :=
  JS.allChars (isNot "010") s = true
  /\ headOK s = true
  /\ s <> ""
  /\ endOK s.

(** ** Shift times *)

(** A second of the shift lies in the delivery window when its time
    of day is in [[8:00, 22:00)]. *)
Definition inDeliveryWindow (t : Z) : Prop :=
  DELIVERY_CONFIG.HOURS.START <= t mod DAY_SECONDS < DELIVERY_CONFIG.HOURS.END.

(** The end of the shift after the midnight adjustment. *)
Definition wrappedEnd (s e : Z) : Z := if e <? s then e + DAY_SECONDS else e.

(** Subtraction of durations, clamped at zero. *)
Definition clampAtZero (n : number) : number :=
  match n with
  | Num z => Num (Z.max 0 z)
  | NaN => NaN
  end.

(** ** The calendar and the daily quota *)

(** The day numbers, counted from 1970-01-01, of the two ends of the
    holiday period. *)
Definition eidStartDay : Z := 20188.
Definition eidEndDay : Z := 20208.

(** The number of days of month [m] (1..12). *)
Definition daysInMonth (leap m : Z) : Z :=
  match m with
  | 2 => 28 + leap
  | 4 | 6 | 9 | 11 => 30
  | _ => 31
  end.

(** A date string of the calendar: its day exists in its month. *)
Definition calendarDate (s : string) (y m d : Z) : Prop :=
  Date.fields s = Some (y, m, d) /\ d <= daysInMonth (Date.leapDays y) m.

(** The holiday window in the words of the specification: 10 to 30
    April 2025, both ends included. *)
Definition inHolidayWindow (y m d : Z) : bool :=
  (y =? 2025) && (m =? 4) && (10 <=? d) && (d <=? 30).

(** The daily minimum of a date: six hours in the holiday window,
    eight hours and twenty-four minutes otherwise. *)
Definition quotaThreshold (y m d : Z) : Z :=
  if inHolidayWindow y m d then 6 * 3600 else 8 * 3600 + 24 * 60.

(** ** The store as the monthly queries read it *)

(** The lines of a file; none when the file does not exist. *)
Definition storeLines (disk : fileSystem) (textFile : string) : list string :=
  match disk !! textFile with
  | Some content => linesOf content
  | None => []
  end.

(** Field [i] of a record that has it. *)
Definition field (i : nat) (parts : list string) : string :=
  default "" (parts !! i).

(** The complete records among some lines: the lines with at least
    ten comma-separated fields, split into their fields. *)
Definition completeRecords (lines : list string) : list (list string) :=
  filter (fun parts => (10 <= length parts)%nat) (map (JS.split ",") lines).

(** The records of a driver that carry the bonus flag. *)
Definition bonusRecordsOf (driverID : string) (records : list (list string))
  : list (list string) :=
  filter (fun r => field 0 r = driverID /\ field 9 r = "true") records.

(** The month (1..12) of a date on the host's local calendar. *)
Definition localMonth (LocalTZA : Z -> Z) (date : string) : number :=
  JS.add (Date.getMonth LocalTZA (Date.parse date)) (Num 1).

(** The record is dated in the given month of the host's calendar. *)
Definition inLocalMonth (LocalTZA : Z -> Z) (month : number)
    (r : list string) : Prop :=
  JS.seq (localMonth LocalTZA (field 2 r)) month = true.

#[global] Instance inLocalMonth_dec LocalTZA month r :
  Decision (inLocalMonth LocalTZA month r).
Proof. unfold inLocalMonth. apply _. Defined.

(** [total += x] over a list, from zero. *)
Definition sumNumbers (l : list number) : number := fold_left JS.add l (Num 0).

(** ** Required hours *)

(** The month (1..12) of a date on the UTC calendar. *)
Definition utcMonth (date : string) : number :=
  JS.add (Date.getUTCMonth (Date.parse date)) (Num 1).

(** The dates of the driver's records in a month, one per record. *)
Definition driverDatesIn (driverID : string) (month : number)
    (records : list (list string)) : list string :=
  map (field 2)
      (filter (fun r => field 0 r = driverID
                        /\ JS.seq (utcMonth (field 2 r)) month = true)
              records).

(** A date falls on the day off when it has that weekday; without a
    day off no date does. *)
Definition onDayOff (dayOff : option Z) (date : string) : Prop :=
  match dayOff with
  | Some n => JS.seq (Date.getUTCDay (Date.parse date)) (Num n) = true
  | None => False
  end.

#[global] Instance onDayOff_dec dayOff date : Decision (onDayOff dayOff date).
Proof. destruct dayOff; cbn [onDayOff]; apply _. Defined.

(** The hours a worked day requires. *)
Definition dailyMinimum (date : string) : Z :=
  if isEid (Date.parse date)
  then DELIVERY_CONFIG.DAILY_MINIMUM.EID
  else DELIVERY_CONFIG.DAILY_MINIMUM.NORMAL.




(** The driver has no line in the rate table. *)
Definition absentFromRates (driverID : string) (rateLines : list string) : Prop :=
  Forall (fun line => field 0 (JS.split "," line) <> driverID) rateLines.

(** ** Keys and the line format of the store *)

(** The (driverID, date) pair a line carries, when it has a date. *)
Definition lineKey (line : string) : option (string * string) :=
  let parts := JS.split "," line in
  match parts !! 0%nat, parts !! 2%nat with
  | Some a, Some b => Some (a, b)
  | _, _ => None
  end.

(** The number of records of the store with a given key. *)
Definition recordsWithKey (disk : fileSystem) (textFile driverID date : string) : nat :=
  length (filter (fun line => lineKey line = Some (driverID, date))
                 (storeLines disk textFile)).

(** A shift whose fields fit the line format: no line feed in any
    field, no comma in the three leading fields, and no white space in
    front of the driverID. *)
Definition fitsFormat (shiftObj : ShiftObj) : bool :=
  noComma (objDriverID shiftObj) && noNewline (objDriverID shiftObj)
  && headOK (objDriverID shiftObj)
  && noComma (objDriverName shiftObj) && noNewline (objDriverName shiftObj)
  && noComma (objDate shiftObj) && noNewline (objDate shiftObj)
  && noNewline (objStartTime shiftObj) && noNewline (objEndTime shiftObj).

(** A stored line that starts with its driverID and has a date. *)
Definition storedLineOK (line : string) : bool :=
  headOK line && (3 <=? length (JS.split "," line))%nat.

(** Every line of the store is such a line. *)
Definition storeOK (disk : fileSystem) (textFile : string) : bool :=
  forallb storedLineOK (storeLines disk textFile).

(** The first statement of [addShiftRecord]: create the file when it
    is missing. *)
Definition ensureFile (disk : fileSystem) (textFile : string) : fileSystem :=
  if negb (fs.existsSync disk textFile)
  then fs.writeFileSync disk textFile "" else disk.

(** The lines the successful append writes. *)
Definition linesAfterAppend (disk : fileSystem) (textFile : string)
    (shiftObj : ShiftObj) : list string :=
  map lineOfRecord
      (sort byDate (map recordOfLine (storeLines disk textFile)
                    ++ [newRecordOf shiftObj])%list).

(** ** Idle time in closed form *)

(** The idle seconds between midnight of day 0 and second [t]: ten
    hours for every full day, then what of [t]'s own day lies before
    8:00 and after 22:00. *)
Definition idleUpTo (t : Z) : Z :=
  t / DAY_SECONDS
  * (DAY_SECONDS - (DELIVERY_CONFIG.HOURS.END - DELIVERY_CONFIG.HOURS.START))
  + Z.min (t mod DAY_SECONDS) DELIVERY_CONFIG.HOURS.START
  + Z.max 0 (t mod DAY_SECONDS - DELIVERY_CONFIG.HOURS.END).

(** ** Clock strings *)

(** The clock string of an hour, a minute and a second with an
    [am]/[pm] modifier, as [h:mm:ss am]. *)
Definition clockString (h m s : Z) (modifier : string) : string :=
  JS.digits h ++ ":" ++ JS.padStart 2 "0" (JS.digits m) ++ ":"
    ++ JS.padStart 2 "0" (JS.digits s) ++ " " ++ modifier.

(** ** The ends of a line *)

(** The last character of a string. *)
Fixpoint lastChar (s : string) : option ascii :=
  match s with
  | EmptyString => None
  | String c r =>
      match lastChar r with
      | Some d => Some d
      | None => Some c
      end
  end.

(** The string is not empty and does not end with white space. *)
Definition lastOK (s : string) : bool :=
  match lastChar s with
  | Some c => negb (JS.isWhiteSpace c)
  | None => false
  end.

(** What [readLines] returns: lines that are not empty and hold no line
    feed, the first without white space in front, the last without
    white space behind. *)
Definition readableLines (lines : list string) : Prop :=
  Forall (fun l => l <> "" /\ noNewline l = true) lines
  /\ (forall x, head lines = Some x -> headOK x = true)
  /\ (forall x, last lines = Some x -> lastOK x = true).

(** ** The bonus flag *)

(** The record [setBonus] looks for: a complete record of the driver
    on the date. *)
Definition isBonusTarget (driverID date : string) (parts : list string) : bool :=
  bool_decide ((10 <= length parts)%nat
               /\ parts !! 0%nat = Some driverID
               /\ parts !! 2%nat = Some date).

(** The fields of a record after [setBonus]: the tenth field of a
    target is the new value, every other field of every record is as
    it was. *)
Definition bonusUpdate (driverID date : string) (newValue : bool)
    (parts : list string) : list string :=
  if isBonusTarget driverID date parts
  then <[9%nat := boolToString newValue]> parts
  else parts.

(** The line [setBonus] writes for a line it read. *)
Definition bonusLine (driverID date : string) (newValue : bool)
    (line : string) : string :=
  JS.join "," (bonusUpdate driverID date newValue (JS.split "," line)).

(** ** Date order *)

(** The record's date parses. *)
Definition hasValidDate (r : Rec.t) : Prop := Date.new (Rec.date r) <> NaN.

(** The time value of the record's date, when it parses. *)
Definition timeValue (r : Rec.t) : Z :=
  match Date.new (Rec.date r) with
  | Num t => t
  | NaN => 0
  end.

(** The first record is not dated after the second. *)
Definition notLater (a b : Rec.t) : Prop := timeValue a <= timeValue b.

#[global] Instance notLater_dec a b : Decision (notLater a b).
Proof. unfold notLater. apply _. Defined.

(** ** Sample data *)

Module Examples.

(** A shift file with one complete record, and a rate table. *)
Definition shifts : string :=
  "D1,Ali,2025-01-05,8:00:00 am,5:00:00 pm,9:00:00,0:00:00,9:00:00,true,true".

Definition disk : fileSystem :=
  {[ "shifts.txt" := shifts; "driverRates.txt" := "D1,Friday,18500,2" ]}.

Definition mona : ShiftObj :=
  mkShiftObj "D2" "Mona" "2025-01-02" "6:00:00 am" "11:00:00 pm".

(** A host on UTC. *)
Definition utc : Z -> Z := fun _ => 0.

(** A host five hours west of UTC, the offset in milliseconds. *)
Definition west : Z -> Z := fun _ => -18000000.

(** A shift file whose one record, a bonus record, is dated on the
    first day of April. *)
Definition aprilShift : string :=
  "D1,Ali,2025-04-01,8:00:00 am,5:00:00 pm,9:00:00,0:00:00,9:00:00,true,true".

Definition aprilDisk : fileSystem := {[ "shifts.txt" := aprilShift ]}.

End Examples.

(** * Properties *)

(** ** Strings *)

Module StringFacts.
Import JS.

Lemma allChars_app p a b :
  allChars p (a ++ b) = allChars p a && allChars p b.
Proof.
  induction a as [|c a IH]; simpl; [done|].
  rewrite IH. by rewrite andb_assoc.
Qed.

Lemma allChars_impl (p q : ascii -> bool) s :
  (forall c, p c = true -> q c = true) ->
  allChars p s = true -> allChars q s = true.
Proof.
  intros Hpq. induction s as [|c s IH]; simpl; [done|].
  intros [Hc Hs]%andb_prop. rewrite (Hpq _ Hc). simpl. auto.
Qed.

Lemma split_not_nil sep s : split sep s <> [].
Proof.
  destruct s as [|c s]; simpl; [done|].
  destruct (Ascii.eqb c sep); [done|]. by destruct (split sep s).
Qed.

Lemma split_no_sep sep s :
  allChars (isNot sep) s = true -> split sep s = [s].
Proof.
  induction s as [|c s IH]; simpl; [done|].
  unfold isNot at 1. intros [Hc Hs]%andb_prop.
  apply negb_true_iff in Hc. rewrite Hc, (IH Hs). done.
Qed.

Lemma split_app sep a b :
  allChars (isNot sep) a = true ->
  split sep (a ++ String sep b) = a :: split sep b.
Proof.
  induction a as [|c a IH]; simpl.
  - intros _. by rewrite Ascii.eqb_refl.
  - unfold isNot at 1. intros [Hc Ha]%andb_prop.
    apply negb_true_iff in Hc. rewrite Hc, (IH Ha). done.
Qed.

(** The pieces of a split never contain the separator, and keep
    every property of the characters of the whole. *)
Lemma split_parts_no_sep sep s :
  Forall (fun p => allChars (isNot sep) p = true) (split sep s).
Proof.
  induction s as [|c s IH]; simpl.
  - by constructor.
  - destruct (Ascii.eqb c sep) eqn:Hc.
    + by constructor.
    + destruct (split sep s) as [|h t]; simpl.
      * constructor; [|done]. simpl. unfold isNot. by rewrite Hc.
      * inversion IH; subst. constructor; [|done].
        simpl. unfold isNot at 1. by rewrite Hc.
Qed.

Lemma split_parts_keep p sep s :
  allChars p s = true ->
  Forall (fun x => allChars p x = true) (split sep s).
Proof.
  induction s as [|c s IH]; simpl.
  - by constructor.
  - intros [Hc Hs]%andb_prop. specialize (IH Hs).
    destruct (Ascii.eqb c sep).
    + by constructor.
    + destruct (split sep s) as [|h t]; simpl.
      * constructor; [|done]. simpl. by rewrite Hc.
      * inversion IH; subst. constructor; [|done].
        simpl. by rewrite Hc.
Qed.

Lemma join_cons sep x y l :
  join sep (x :: y :: l) = x ++ sep ++ join sep (y :: l).
Proof. done. Qed.

Lemma split_join sep l :
  l <> [] ->
  Forall (fun p => allChars (isNot sep) p = true) l ->
  split sep (join (String sep EmptyString) l) = l.
Proof.
  induction l as [|x l IH]; [done|]. intros _ Hall.
  inversion Hall as [|? ? Hx Hl]; subst.
  destruct l as [|y l].
  - simpl. by apply split_no_sep.
  - rewrite join_cons.
    change (split sep (x ++ String sep (join (String sep EmptyString) (y :: l)))
            = x :: y :: l).
    rewrite split_app by done. f_equal. by apply IH.
Qed.

(** *** Trimming *)

Lemma trimStart_headOK s : headOK s = true -> trimStart s = s.
Proof.
  destruct s as [|c s]; simpl; [done|].
  intros Hc%negb_true_iff. by rewrite Hc.
Qed.

Lemma headOK_app a b : a <> EmptyString -> headOK (a ++ b) = headOK a.
Proof. by destruct a. Qed.

Lemma trimEnd_app a b :
  trimEnd b <> EmptyString -> trimEnd (a ++ b) = a ++ trimEnd b.
Proof.
  intros Hb. induction a as [|c a IH]; simpl; [done|].
  change (String c a ++ trimEnd b) with (String c (a ++ trimEnd b)).
  rewrite IH. destruct (a ++ trimEnd b) eqn:E; [|done].
  destruct a; [contradiction | discriminate].
Qed.

Lemma trimEnd_clean s :
  allChars (fun c => negb (isWhiteSpace c)) s = true -> trimEnd s = s.
Proof.
  induction s as [|c s IH]; simpl; [done|].
  intros [Hc Hs]%andb_prop. rewrite (IH Hs).
  apply negb_true_iff in Hc. rewrite Hc. by destruct s.
Qed.

Lemma trim_clean s :
  allChars (fun c => negb (isWhiteSpace c)) s = true -> trim s = s.
Proof.
  intros H. unfold trim. rewrite trimStart_headOK.
  - by apply trimEnd_clean.
  - destruct s; simpl in *; [done|]. by apply andb_prop in H as [? _].
Qed.

Lemma toLowerCase_fixed s :
  allChars (fun c => Ascii.eqb (lowerChar c) c) s = true ->
  toLowerCase s = s.
Proof.
  unfold toLowerCase. induction s as [|c s IH]; simpl; [done|].
  intros [Hc Hs]%andb_prop. apply Ascii.eqb_eq in Hc.
  by rewrite Hc, (IH Hs).
Qed.

Lemma append_nil_r s : s ++ EmptyString = s.
Proof. induction s; simpl; congruence. Qed.

Lemma append_assoc (a b c : string) : (a ++ b) ++ c = a ++ (b ++ c).
Proof. induction a; simpl; congruence. Qed.

End StringFacts.

(** ** The time codec *)

Module CodecFacts.
Import JS StringFacts.

Ltac by_cases_on_char c :=
  destruct c as [[] [] [] [] [] [] [] []]; vm_compute; congruence.

Lemma timeChar_fmtChar c : timeChar c = true -> fmtChar c = true.
Proof. unfold fmtChar. by intros ->. Qed.

Lemma isDigit_timeChar c : isDigit c = true -> timeChar c = true.
Proof. unfold timeChar. by intros ->. Qed.

Lemma fmtChar_not_ws c : fmtChar c = true -> negb (isWhiteSpace c) = true.
Proof. by_cases_on_char c. Qed.

Lemma fmtChar_not_comma c : fmtChar c = true -> isNot "," c = true.
Proof. by_cases_on_char c. Qed.

Lemma fmtChar_not_newline c : fmtChar c = true -> isNot "010" c = true.
Proof. by_cases_on_char c. Qed.

Lemma timeChar_not_space c : timeChar c = true -> isNot " " c = true.
Proof. by_cases_on_char c. Qed.

Lemma timeChar_lower c : timeChar c = true -> Ascii.eqb (lowerChar c) c = true.
Proof. by_cases_on_char c. Qed.

Lemma isDigit_not_colon c : isDigit c = true -> isNot ":" c = true.
Proof. by_cases_on_char c. Qed.

Lemma string_of_uint_digits d :
  allChars isDigit (NilEmpty.string_of_uint d) = true.
Proof. induction d; simpl; auto. Qed.

Lemma digits_allDigits z : allChars isDigit (digits z) = true.
Proof. apply string_of_uint_digits. Qed.

Lemma repeatChar_zero_digits k : allChars isDigit (repeatChar "0" k) = true.
Proof. induction k; simpl; auto. Qed.

Lemma padStart_digits z : allChars isDigit (padStart 2 "0" (digits z)) = true.
Proof.
  unfold padStart. rewrite allChars_app, repeatChar_zero_digits.
  apply digits_allDigits.
Qed.

Lemma allDigits_trim s : allChars isDigit s = true -> trim s = s.
Proof.
  intros H. apply trim_clean. revert H. apply allChars_impl.
  intros c Hc. by apply fmtChar_not_ws, timeChar_fmtChar, isDigit_timeChar.
Qed.

(** [Number] reads back what [String] prints, also behind padding. *)
Lemma Number_padded k z :
  0 <= z -> Number (repeatChar "0" k ++ digits z) = Num z.
Proof.
  intros Hz. unfold Number. rewrite allDigits_trim.
  2: { rewrite allChars_app, repeatChar_zero_digits. apply digits_allDigits. }
  assert (H : NilEmpty.uint_of_string (repeatChar "0" k ++ digits z)
              = Some (Nat.iter k Decimal.D0 (N.to_uint (Z.to_N z)))).
  { induction k as [|k IH]; simpl.
    - apply NilEmpty.usu.
    - rewrite IH. reflexivity. }
  rewrite H. f_equal.
  assert (G : forall d, N.of_uint (Nat.iter k Decimal.D0 d) = N.of_uint d).
  { clear. intros d. induction k as [|k IH]; simpl; [done|]. apply IH. }
  rewrite G, DecimalN.Unsigned.of_to. lia.
Qed.

Lemma Number_digits z : 0 <= z -> Number (digits z) = Num z.
Proof. apply (Number_padded 0). Qed.

Lemma Number_padStart z :
  0 <= z -> Number (padStart 2 "0" (digits z)) = Num z.
Proof. apply Number_padded. Qed.

(** The shape of a formatted non-negative time. *)
Lemma formatToTime_nonneg n :
  0 <= n ->
  formatToTime (Num n)
  = digits (n / 3600) ++ ":" ++ padStart 2 "0" (digits (n mod 3600 / 60))
      ++ ":" ++ padStart 2 "0" (digits (n mod 60)).
Proof.
  intros Hn. unfold formatToTime.
  assert (JS.lt (Num n) (Num 0) = false) as -> by (simpl; lia).
  simpl JS.floorDiv. simpl JS.rem.
  rewrite !Z.rem_mod_nonneg by lia.
  unfold numberToString.
  assert ((n / 3600 <? 0) = false) as -> by (apply Z.ltb_ge; apply Z.div_pos; lia).
  assert ((n mod 3600 / 60 <? 0) = false) as ->.
  { apply Z.ltb_ge, Z.div_pos; [|lia]. apply Z.mod_pos_bound. lia. }
  assert ((n mod 60 <? 0) = false) as ->.
  { apply Z.ltb_ge. apply Z.mod_pos_bound. lia. }
  done.
Qed.

Lemma formatToTime_negative n : n < 0 -> formatToTime (Num n) = "0:00:00".
Proof.
  intros Hn. unfold formatToTime.
  assert (JS.lt (Num n) (Num 0) = true) as -> by (simpl; lia).
  done.
Qed.

Lemma formatToTime_max n : formatToTime (Num n) = formatToTime (Num (Z.max 0 n)).
Proof.
  destruct (Z.lt_ge_cases n 0).
  - rewrite formatToTime_negative by done. by rewrite Z.max_l by lia.
  - by rewrite Z.max_r by lia.
Qed.

Lemma formatToTime_fmtChars x : allChars fmtChar (formatToTime x) = true.
Proof.
  destruct x as [|n]; [done|].
  rewrite formatToTime_max, formatToTime_nonneg by lia.
  rewrite !allChars_app.
  rewrite (allChars_impl isDigit fmtChar _ (fun c H => timeChar_fmtChar c (isDigit_timeChar c H))
             (digits_allDigits _)).
  rewrite !(allChars_impl isDigit fmtChar _ (fun c H => timeChar_fmtChar c (isDigit_timeChar c H))
             (padStart_digits _)).
  done.
Qed.

(** Parsing a formatted time gives back its seconds. *)
Lemma parse_format n :
  parseToSeconds (formatToTime (Num n)) = Num (Z.max 0 n).
Proof.
  rewrite formatToTime_max.
  assert (Hn : 0 <= Z.max 0 n) by lia. revert Hn.
  generalize (Z.max 0 n). clear n. intros n Hn.
  rewrite formatToTime_nonneg by done.
  set (H := digits (n / 3600)).
  set (M := padStart 2 "0" (digits (n mod 3600 / 60))).
  set (S := padStart 2 "0" (digits (n mod 60))).
  assert (HH : allChars isDigit H = true) by apply digits_allDigits.
  assert (HM : allChars isDigit M = true) by apply padStart_digits.
  assert (HS : allChars isDigit S = true) by apply padStart_digits.
  assert (Hall : allChars timeChar (H ++ ":" ++ M ++ ":" ++ S) = true).
  { rewrite !allChars_app.
    rewrite (allChars_impl isDigit timeChar H isDigit_timeChar HH).
    rewrite (allChars_impl isDigit timeChar M isDigit_timeChar HM).
    rewrite (allChars_impl isDigit timeChar S isDigit_timeChar HS).
    reflexivity. }
  unfold parseToSeconds.
  rewrite trim_clean.
  2: { revert Hall. apply allChars_impl. intros c Hc.
       by apply fmtChar_not_ws, timeChar_fmtChar. }
  rewrite toLowerCase_fixed.
  2: { revert Hall. apply allChars_impl, timeChar_lower. }
  rewrite split_no_sep.
  2: { revert Hall. apply allChars_impl, timeChar_not_space. }
  cbn [lookup list_lookup default from_option id].
  change (H ++ ":" ++ M ++ ":" ++ S)
    with (H ++ String ":" (M ++ String ":" S)).
  rewrite split_app.
  2: { revert HH. apply allChars_impl, isDigit_not_colon. }
  rewrite split_app.
  2: { revert HM. apply allChars_impl, isDigit_not_colon. }
  rewrite split_no_sep.
  2: { revert HS. apply allChars_impl, isDigit_not_colon. }
  cbn [map lookup list_lookup default from_option id].
  unfold H, M, S.
  rewrite Number_digits, !Number_padStart.
  - cbn [JS.add JS.mul JS.lift2]. f_equal. clear.
    rewrite <- (Z.mod_mod_divide n 3600 60) by (exists 60; lia).
    pose proof (Z.div_mod n 3600). pose proof (Z.div_mod (n mod 3600) 60).
    lia.
  - apply Z.mod_pos_bound. lia.
  - apply Z.div_pos; [|lia]. apply Z.mod_pos_bound. lia.
  - apply Z.div_pos; lia.
Qed.

End CodecFacts.

(** ** The idle-time loop *)

Module IdleFacts.

Ltac day_seconds := change DAY_SECONDS with 86400 in *.

(** Linear arithmetic with division and remainder by constants. *)
Ltac dlia := Z.div_mod_to_equations; lia.

Ltac unfold_config :=
  unfold inDeliveryWindow, wrappedEnd, idleStep in *;
  change DELIVERY_CONFIG.HOURS.START with 28800 in *;
  change DELIVERY_CONFIG.HOURS.END with 79200 in *;
  day_seconds.

Lemma idleLoop_done fuel e st : e <= snd st -> idleLoop fuel e st = st.
Proof.
  intros H. destruct fuel; simpl; [done|].
  by rewrite (proj2 (Z.ltb_ge _ _) H).
Qed.

Lemma idleLoop_step fuel e st :
  snd st < e -> idleLoop (S fuel) e st = idleLoop fuel e (idleStep e st).
Proof. intros H. simpl. by rewrite (proj2 (Z.ltb_lt _ _) H). Qed.

(** A pass moves the cursor to the end of the shift or to the next
    midnight, whichever comes first. *)
Lemma idleStep_cursor e i cur :
  snd (idleStep e (i, cur)) = Z.min e (cur / DAY_SECONDS * DAY_SECONDS + DAY_SECONDS).
Proof. done. Qed.

(** The fuel of [getIdleTime] is enough: the loop stops because its
    condition fails, not because the passes run out. *)
Lemma idleLoop_exits fuel e i cur :
  (cur < e -> e / DAY_SECONDS - cur / DAY_SECONDS + 1 <= Z.of_nat fuel) ->
  e <= snd (idleLoop fuel e (i, cur)).
Proof.
  revert i cur. induction fuel as [|fuel IH]; intros i cur Hfuel.
  - cbn [idleLoop snd]. destruct (Z.lt_ge_cases cur e) as [Hlt|]; [|dlia].
    specialize (Hfuel Hlt). day_seconds. dlia.
  - destruct (Z.lt_ge_cases cur e) as [Hlt|Hge].
    + rewrite idleLoop_step by done.
      destruct (idleStep e (i, cur)) as [i' cur'] eqn:E.
      assert (Hc : cur' = snd (idleStep e (i, cur))) by (by rewrite E).
      rewrite idleStep_cursor in Hc.
      apply IH. intros Hlt'. specialize (Hfuel Hlt).
      day_seconds. dlia.
    + by rewrite idleLoop_done.
Qed.

Lemma idleFuel_enough s e :
  s < e -> e / DAY_SECONDS - s / DAY_SECONDS + 1 <= Z.of_nat (idleFuel s e).
Proof. intros H. unfold idleFuel. day_seconds. dlia. Qed.

(** Inside the window no pass adds idle time. *)
Lemma idleLoop_inside fuel e i cur :
  (forall t, cur <= t < e -> inDeliveryWindow t) ->
  fst (idleLoop fuel e (i, cur)) = i.
Proof.
  revert i cur. induction fuel as [|fuel IH]; intros i cur Hin; [done|].
  destruct (Z.lt_ge_cases cur e) as [Hlt|Hge].
  2: { by rewrite idleLoop_done. }
  rewrite idleLoop_step by done.
  pose proof (Hin cur ltac:(dlia)) as Hcur.
  assert (Hstep : idleStep e (i, cur)
                  = (i, Z.min e (cur / DAY_SECONDS * DAY_SECONDS + DAY_SECONDS))).
  { unfold_config.
    assert ((cur <? cur / 86400 * 86400 + 28800) = false) as -> by dlia.
    destruct (Z.min e (cur / 86400 * 86400 + 86400)
              >? cur / 86400 * 86400 + 79200) eqn:Hgt; [|done].
    exfalso.
    pose proof (Hin (cur / 86400 * 86400 + 79200) ltac:(dlia)). dlia. }
  rewrite Hstep. apply IH. intros t Ht. apply Hin. day_seconds. dlia.
Qed.

(** Outside the window every pass adds the whole segment. *)
Lemma idleLoop_outside fuel e i cur :
  cur <= e ->
  (cur < e -> e / DAY_SECONDS - cur / DAY_SECONDS + 1 <= Z.of_nat fuel) ->
  (forall t, cur <= t < e -> ~ inDeliveryWindow t) ->
  idleLoop fuel e (i, cur) = (i + (e - cur), e).
Proof.
  revert i cur. induction fuel as [|fuel IH]; intros i cur Hle Hfuel Hout.
  - cbn [idleLoop]. destruct (Z.lt_ge_cases cur e) as [Hlt|]; [|f_equal; dlia].
    specialize (Hfuel Hlt). day_seconds. dlia.
  - destruct (Z.lt_ge_cases cur e) as [Hlt|Hge].
    2: { rewrite idleLoop_done by done. f_equal; dlia. }
    rewrite idleLoop_step by done.
    specialize (Hfuel Hlt).
    pose proof (Hout cur ltac:(dlia)) as Hcur.
    set (seg := Z.min e (cur / DAY_SECONDS * DAY_SECONDS + DAY_SECONDS)).
    assert (Hstep : idleStep e (i, cur) = (i + (seg - cur), seg)).
    { unfold seg. unfold_config.
      destruct (cur <? cur / 86400 * 86400 + 28800) eqn:Hlo.
      - assert (Z.min e (cur / 86400 * 86400 + 86400)
                <= cur / 86400 * 86400 + 28800).
        { destruct (Z.le_gt_cases (Z.min e (cur / 86400 * 86400 + 86400))
                      (cur / 86400 * 86400 + 28800)); [done|].
          exfalso.
          apply (Hout (cur / 86400 * 86400 + 28800)); dlia. }
        assert ((Z.min e (cur / 86400 * 86400 + 86400)
                 >? cur / 86400 * 86400 + 79200) = false) as -> by dlia.
        f_equal. dlia.
      - assert ((Z.min e (cur / 86400 * 86400 + 86400)
                 >? cur / 86400 * 86400 + 79200) = true) as -> by dlia.
        f_equal. dlia. }
    rewrite Hstep.
    rewrite IH.
    + f_equal. dlia.
    + unfold seg. dlia.
    + unfold seg in *. day_seconds. dlia.
    + intros t Ht. apply Hout. unfold seg in *. day_seconds. dlia.
Qed.

(** A same-day shift around the whole window: one pass, two tails. *)
Lemma idleLoop_both_tails fuel s e :
  0 <= s < DELIVERY_CONFIG.HOURS.START ->
  DELIVERY_CONFIG.HOURS.END < e <= DAY_SECONDS ->
  (0 < fuel)%nat ->
  idleLoop fuel e (0, s)
  = ((DELIVERY_CONFIG.HOURS.START - s) + (e - DELIVERY_CONFIG.HOURS.END), e).
Proof.
  intros Hs He Hfuel. destruct fuel as [|fuel]; [dlia|].
  unfold_config.
  rewrite idleLoop_step by (simpl; dlia).
  assert (Hstep : idleStep e (0, s) = (28800 - s + (e - 79200), e)).
  { unfold_config.
    assert (s / 86400 = 0) as -> by (apply Z.div_small; dlia).
    assert ((s <? 0 * 86400 + 28800) = true) as -> by dlia.
    assert ((Z.min e (0 * 86400 + 86400) >? 0 * 86400 + 79200) = true)
      as -> by dlia.
    f_equal; dlia. }
  unfold_config. rewrite Hstep. by apply idleLoop_done.
Qed.

End IdleFacts.

(** * Main results *)

(** ** Shift duration and idle time *)

Section ShiftTimes.
Import IdleFacts.

Variables startTime endTime : string.
Variables s e : Z.
Hypothesis Hstart : parseToSeconds startTime = Num s.
Hypothesis Hend : parseToSeconds endTime = Num e.

Lemma getShiftDuration_seconds :
  getShiftDuration startTime endTime = formatToTime (Num (wrappedEnd s e - s)).
Proof.
  unfold getShiftDuration, wrappedEnd. rewrite Hstart, Hend.
  cbn [JS.lt JS.cmp2]. by destruct (e <? s).
Qed.

Lemma getIdleTime_seconds :
  getIdleTime startTime endTime
  = formatToTime
      (Num (fst (idleLoop (idleFuel s (wrappedEnd s e)) (wrappedEnd s e) (0, s)))).
Proof.
  unfold getIdleTime, idleSeconds, wrappedEnd. rewrite Hstart, Hend.
  cbn [JS.lt JS.cmp2]. by destruct (e <? s).
Qed.

(** The loop of [getIdleTime] ends because its condition fails. *)
Lemma getIdleTime_loop_exits :
  wrappedEnd s e
  <= snd (idleLoop (idleFuel s (wrappedEnd s e)) (wrappedEnd s e) (0, s)).
Proof. apply idleLoop_exits, idleFuel_enough. Qed.

End ShiftTimes.

(** C10: when the start and the end clock strings parse to the same
    second of the day, the shift is empty, not a 24-hour one:
    [getShiftDuration] returns ["0:00:00"] and [getIdleTime] returns
    ["0:00:00"]. *)
Theorem equal_start_end_is_empty_shift (startTime endTime : string) (n : Z) :
  parseToSeconds startTime = Num n ->
  parseToSeconds endTime = Num n ->
  getShiftDuration startTime endTime = "0:00:00"
  /\ getIdleTime startTime endTime = "0:00:00".
Proof.
  intros Hs He. split.
  - rewrite (getShiftDuration_seconds _ _ _ _ Hs He).
    unfold wrappedEnd. rewrite Z.ltb_irrefl, Z.sub_diag. reflexivity.
  - rewrite (getIdleTime_seconds _ _ _ _ Hs He).
    unfold wrappedEnd. rewrite Z.ltb_irrefl.
    rewrite IdleFacts.idleLoop_done by (simpl; lia). reflexivity.
Qed.

Lemma equal_start_end_is_empty_shift_witness :
  getShiftDuration "12:00:00 am" "0:00:00" = "0:00:00"
  /\ getIdleTime "12:00:00 am" "0:00:00" = "0:00:00".
Proof.
  apply (equal_start_end_is_empty_shift "12:00:00 am" "0:00:00" 0);
    reflexivity.
Defined.

(** C7: a shift whose interval, after the midnight adjustment, lies
    inside the delivery window [[8:00, 22:00)] has no idle time; a shift
    that lies entirely outside the window is idle for its whole
    duration; and a same-day shift that starts before 8:00 and ends
    after 22:00 is idle for the sum of the two tails. *)
Theorem getIdleTime_window_cases (startTime endTime : string) (s e : Z) :
  parseToSeconds startTime = Num s ->
  parseToSeconds endTime = Num e ->
  ((forall t, s <= t < wrappedEnd s e -> inDeliveryWindow t) ->
   getIdleTime startTime endTime = "0:00:00")
  /\ ((forall t, s <= t < wrappedEnd s e -> ~ inDeliveryWindow t) ->
      getIdleTime startTime endTime = getShiftDuration startTime endTime)
  /\ (0 <= s < DELIVERY_CONFIG.HOURS.START ->
      DELIVERY_CONFIG.HOURS.END < e <= DAY_SECONDS ->
      getIdleTime startTime endTime
      = formatToTime (Num ((DELIVERY_CONFIG.HOURS.START - s)
                           + (e - DELIVERY_CONFIG.HOURS.END)))).
Proof.
  intros Hs He.
  rewrite (getIdleTime_seconds _ _ _ _ Hs He).
  rewrite (getShiftDuration_seconds _ _ _ _ Hs He).
  split; [|split].
  - intros Hin. by rewrite IdleFacts.idleLoop_inside.
  - intros Hout.
    destruct (Z.le_gt_cases s (wrappedEnd s e)) as [Hle|Hgt].
    + rewrite IdleFacts.idleLoop_outside; [| done | | done].
      * cbn [fst]. do 2 f_equal; lia.
      * apply IdleFacts.idleFuel_enough.
    + rewrite IdleFacts.idleLoop_done by (cbn [snd]; lia). cbn [fst].
      by rewrite (CodecFacts.formatToTime_negative (_ - _)) by lia.
  - intros Hlo Hhi.
    assert (Hw : wrappedEnd s e = e).
    { unfold wrappedEnd.
      change DELIVERY_CONFIG.HOURS.START with 28800 in Hlo.
      change DELIVERY_CONFIG.HOURS.END with 79200 in Hhi.
      destruct (Z.ltb_spec e s); [lia | done]. }
    rewrite Hw, IdleFacts.idleLoop_both_tails; [done | done | done |].
    unfold idleFuel.
    change DELIVERY_CONFIG.HOURS.START with 28800 in Hlo.
    change DELIVERY_CONFIG.HOURS.END with 79200 in Hhi.
    change DAY_SECONDS with 86400 in *.
    Z.div_mod_to_equations. lia.
Qed.

Lemma getIdleTime_window_cases_witness :
  getIdleTime "9:00:00 am" "5:00:00 pm" = "0:00:00"
  /\ getIdleTime "10:30:00 pm" "6:15:00 am"
     = getShiftDuration "10:30:00 pm" "6:15:00 am"
  /\ getIdleTime "6:00:00 am" "11:30:00 pm" = "3:30:00".
Proof.
  split; [|split].
  - destruct (getIdleTime_window_cases "9:00:00 am" "5:00:00 pm" 32400 61200
                eq_refl eq_refl) as (Hinside & _ & _).
    apply Hinside.
    intros t Ht. unfold inDeliveryWindow.
    change (32400 <= t < 61200) in Ht.
    change (28800 <= t mod 86400 < 79200).
    rewrite Z.mod_small; lia.
  - destruct (getIdleTime_window_cases "10:30:00 pm" "6:15:00 am" 81000 22500
                eq_refl eq_refl) as (_ & Houtside & _).
    apply Houtside.
    intros t Ht. unfold inDeliveryWindow.
    change (81000 <= t < 108900) in Ht.
    change (~ 28800 <= t mod 86400 < 79200).
    destruct (Z.lt_ge_cases t 86400).
    + rewrite Z.mod_small; lia.
    + replace t with ((t - 86400) + 1 * 86400) by lia.
      rewrite Z.mod_add, Z.mod_small; lia.
  - destruct (getIdleTime_window_cases "6:00:00 am" "11:30:00 pm" 21600 84600
                eq_refl eq_refl) as (_ & _ & Htails).
    apply Htails.
    + change (0 <= 21600 < 28800). lia.
    + change (79200 < 84600 <= 86400). lia.
Defined.

(** ** Concrete runs *)

(** C1: appending Mona's shift to a file that holds Ali's complete
    record succeeds, and the rewritten file holds Ali's line with the
    text [undefined] in place of his shiftDuration, idleTime,
    activeTime, metQuota and hasBonus: [addShiftRecord] rebuilds each
    existing record from its first five fields only. *)
Theorem addShiftRecord_loses_derived_fields :
  let '(result, disk') :=
    addShiftRecord Examples.disk "shifts.txt" Examples.mona in
  result = Returns (NewRecord (newRecordOf Examples.mona))
  /\ disk' !! "shifts.txt"
     = Some ("D2,Mona,2025-01-02,6:00:00 am,11:00:00 pm,17:00:00,3:00:00,14:00:00,true,false"
             ++ JS.newline
             ++ "D1,Ali,2025-01-05,8:00:00 am,5:00:00 pm,undefined,undefined,undefined,undefined,undefined")
  /\ linesOf Examples.shifts
     = ["D1,Ali,2025-01-05,8:00:00 am,5:00:00 pm,9:00:00,0:00:00,9:00:00,true,true"].
Proof. vm_compute. done. Qed.

(** C3: with no shift file on disk, [getTotalActiveHoursPerMonth] does
    not return ["0:00:00"]: the value of [formatToTime(0)] is dropped
    and [readLines] throws. *)
Theorem getTotalActiveHoursPerMonth_missing_file_throws :
  getTotalActiveHoursPerMonth Examples.utc ∅ "shifts.txt" "D1" (Num 4)
  = Throws (ENOENT "shifts.txt").
Proof. reflexivity. Qed.

(** The same on every host, disk, driver and month. *)
Lemma getTotalActiveHoursPerMonth_absent LocalTZA (disk : fileSystem)
    textFile driverID month :
  disk !! textFile = None ->
  getTotalActiveHoursPerMonth LocalTZA disk textFile driverID month
  = Throws (ENOENT textFile).
Proof.
  intros H. unfold getTotalActiveHoursPerMonth, readLines, fs.readFileSync.
  by rewrite H.
Qed.

(** C5: [getNetPay] computes no pay.  For the driver of the rate table
    (base pay 18500, tier 2) with 160 hours worked out of 185 required,
    that is 25 missing hours, it returns [undefined], not 18000. *)
Theorem getNetPay_returns_undefined :
  getNetPay Examples.disk "D1" "160:00:00" "185:00:00" "driverRates.txt"
  = JUndefined
  /\ JUndefined <> JNum (Num 18000).
Proof. split; [reflexivity | discriminate]. Qed.

(** ** Calendar facts *)

Module DateFacts.
Import Date.

Ltac dlia := Z.div_mod_to_equations; lia.

(** A date string that parses spells a month in 1..12 and a day in
    1..31. *)
Lemma fields_range s y m d :
  fields s = Some (y, m, d) -> 1 <= m <= 12 /\ 1 <= d <= 31.
Proof.
  unfold fields.
  destruct s as [|y1 [|y2 [|y3 [|y4 [|s1 [|m1 [|m2 [|s2 [|d1 [|d2 [|? ?]]]]]]]]]]];
    try discriminate.
  destruct (_ && _); [|discriminate].
  destruct (num4 y1 y2 y3 y4) as [y'|], (num2 m1 m2) as [m'|],
    (num2 d1 d2) as [d'|]; cbn [mbind option_bind]; try discriminate.
  destruct (_ && _) eqn:E; [|discriminate].
  intros [= <- <- <-].
  repeat (apply andb_prop in E as [E ?]). lia.
Qed.

Lemma parse_fields s y m d :
  fields s = Some (y, m, d) ->
  parse s = Num (MakeDay y (m - 1) d * msPerDay).
Proof. unfold parse. by intros ->. Qed.

Lemma parse_invalid s : fields s = None -> parse s = NaN.
Proof. unfold parse. by intros ->. Qed.

(** Years are laid out in order. *)
Lemma DayFromYear_succ y :
  DayFromYear (y + 1) = DayFromYear y + 365 + leapDays y.
Proof.
  unfold DayFromYear, leapDays, InLeapYear.
  destruct (Z.eqb_spec (y mod 4) 0); cbn [negb];
    [destruct (Z.eqb_spec (y mod 100) 0); cbn [negb];
     [destruct (Z.eqb_spec (y mod 400) 0); cbn [negb]|]|]; dlia.
Qed.

Lemma leapDays_range y : 0 <= leapDays y <= 1.
Proof. unfold leapDays. destruct (InLeapYear y); lia. Qed.

Lemma DayFromYear_mono y1 y2 :
  y1 <= y2 -> DayFromYear y1 + 365 * (y2 - y1) <= DayFromYear y2.
Proof. intros H. unfold DayFromYear. dlia. Qed.

Lemma monthStart_range leap m :
  0 <= leap <= 1 -> 0 <= m <= 11 -> 0 <= monthStart leap m <= 334 + leap.
Proof.
  intros Hl Hm.
  assert (m = 0 \/ m = 1 \/ m = 2 \/ m = 3 \/ m = 4 \/ m = 5 \/ m = 6
          \/ m = 7 \/ m = 8 \/ m = 9 \/ m = 10 \/ m = 11) as Hcases by lia.
  repeat (destruct Hcases as [-> | Hcases]); try subst m; simpl; lia.
Qed.

(** *** The holiday period *)

Lemma isEid_days day :
  isEid (Num (day * msPerDay)) = (eidStartDay <=? day) && (day <=? eidEndDay).
Proof.
  unfold isEid, eidStartDay, eidEndDay.
  change DELIVERY_CONFIG.EID_DATE.START with (Num (20188 * 86400000)).
  change DELIVERY_CONFIG.EID_DATE.END with (Num (20208 * 86400000)).
  change msPerDay with 86400000.
  cbn [JS.ge JS.le JS.cmp2].
  rewrite Z.geb_leb.
  destruct (Z.leb_spec 20188 day), (Z.leb_spec day 20208); cbn [andb];
    repeat match goal with
           | |- context [?a <=? ?b] => destruct (Z.leb_spec a b)
           end; cbn [andb]; try reflexivity; lia.
Qed.

(** Reads [monthStart] at a literal month. *)
Ltac month_table :=
  repeat match goal with
         | |- context [monthStart ?l (?k - 1)] =>
             let v := eval vm_compute in (k - 1) in
             change (monthStart l (k - 1)) with (monthStart l v)
         end;
  cbn [monthStart].

Lemma MakeDay_2025 m d :
  MakeDay 2025 (m - 1) d = 20089 + monthStart 0 (m - 1) + d - 1.
Proof. reflexivity. Qed.

(** The dates of the holiday period are exactly 10 to 30 April 2025. *)
Lemma isEid_iff y m d :
  1 <= m <= 12 -> 1 <= d <= 31 ->
  isEid (Num (MakeDay y (m - 1) d * msPerDay)) = true
  <-> y = 2025 /\ m = 4 /\ 10 <= d <= 30.
Proof.
  intros Hm Hd. rewrite isEid_days. unfold eidStartDay, eidEndDay.
  rewrite andb_true_iff, !Z.leb_le.
  pose proof (leapDays_range y) as Hleap.
  pose proof (monthStart_range (leapDays y) (m - 1) Hleap ltac:(lia)) as Hms.
  destruct (Z.lt_trichotomy y 2025) as [Hy | [-> | Hy]].
  - pose proof (DayFromYear_mono y 2024 ltac:(lia)) as Hmono.
    change (DayFromYear 2024) with 19723 in Hmono.
    unfold MakeDay. lia.
  - rewrite MakeDay_2025.
    assert (m = 1 \/ m = 2 \/ m = 3 \/ m = 4 \/ m = 5 \/ m = 6 \/ m = 7
            \/ m = 8 \/ m = 9 \/ m = 10 \/ m = 11 \/ m = 12) as Hcases by lia.
    repeat (destruct Hcases as [-> | Hcases]); try subst m;
      month_table; lia.
  - pose proof (DayFromYear_mono 2026 y ltac:(lia)) as Hmono.
    change (DayFromYear 2026) with 20454 in Hmono.
    unfold MakeDay. lia.
Qed.

(** *** Months *)

Lemma YearFromDay_spec day :
  DayFromYear (YearFromDay day) <= day < DayFromYear (YearFromDay day + 1).
Proof.
  unfold YearFromDay.
  set (y0 := 1970 + day * 400 / 146097).
  assert (Hlo : DayFromYear (y0 - 1) <= day).
  { unfold y0, DayFromYear. dlia. }
  assert (Hhi : day < DayFromYear (y0 + 1 + 1)).
  { unfold y0, DayFromYear. dlia. }
  destruct (Z.ltb_spec day (DayFromYear y0)).
  - replace (y0 - 1 + 1) with y0 by lia. lia.
  - destruct (Z.leb_spec (DayFromYear (y0 + 1)) day); lia.
Qed.

Lemma YearFromDay_unique y day :
  DayFromYear y <= day < DayFromYear (y + 1) -> YearFromDay day = y.
Proof.
  intros Hy. pose proof (YearFromDay_spec day) as HY.
  destruct (Z.lt_trichotomy (YearFromDay day) y) as [Hlt | [Heq | Hgt]]; [|done|].
  - pose proof (DayFromYear_mono (YearFromDay day + 1) y ltac:(lia)). lia.
  - pose proof (DayFromYear_mono (y + 1) (YearFromDay day) ltac:(lia)). lia.
Qed.

(** A calendar date reads back its own month (January is 0). *)
Lemma MonthFromDay_MakeDay y m d :
  1 <= m <= 12 -> 1 <= d <= daysInMonth (leapDays y) m ->
  MonthFromDay (MakeDay y (m - 1) d) = m - 1.
Proof.
  intros Hm Hd. pose proof (leapDays_range y) as Hleap.
  assert (Hn : 0 <= monthStart (leapDays y) (m - 1) + d - 1 < 365 + leapDays y
               /\ MonthFromDay (MakeDay y (m - 1) d) = m - 1);
    [|by destruct Hn].
  assert (Hyear : 0 <= monthStart (leapDays y) (m - 1) + d - 1 < 365 + leapDays y ->
                  YearFromDay (MakeDay y (m - 1) d) = y).
  { intros Hr. apply YearFromDay_unique. rewrite DayFromYear_succ.
    unfold MakeDay. lia. }
  unfold MonthFromDay, DayWithinYear.
  assert (m = 1 \/ m = 2 \/ m = 3 \/ m = 4 \/ m = 5 \/ m = 6 \/ m = 7
          \/ m = 8 \/ m = 9 \/ m = 10 \/ m = 11 \/ m = 12) as Hcases by lia.
  repeat (destruct Hcases as [-> | Hcases]); try subst m;
    cbn [daysInMonth] in Hd;
    match goal with
    | |- context [MakeDay y ?mm d] =>
        assert (Hr : 0 <= monthStart (leapDays y) mm + d - 1 < 365 + leapDays y)
          by (month_table; lia)
    end;
    (split; [exact Hr|]);
    rewrite (Hyear Hr); unfold MakeDay; month_table;
    repeat match goal with
           | |- context [?a <? ?b] => destruct (Z.ltb_spec a b); try lia
           end.
Qed.

Lemma getUTCMonth_calendar s y m d :
  calendarDate s y m d ->
  JS.add (getUTCMonth (parse s)) (Num 1) = Num m.
Proof.
  intros [Hf Hd]. pose proof (fields_range _ _ _ _ Hf) as [Hm Hd1].
  rewrite (parse_fields _ _ _ _ Hf). cbn [getUTCMonth JS.add JS.lift2].
  unfold MonthFromTime, Day. rewrite Z.div_mul by done.
  rewrite MonthFromDay_MakeDay by lia. f_equal. lia.
Qed.

(** On a host at or east of UTC (an offset from 0 up to, but not
    reaching, 24 hours), the local month of a date string is the month
    it spells. *)
Lemma getMonth_calendar LocalTZA s y m d :
  (forall t, 0 <= LocalTZA t < msPerDay) ->
  calendarDate s y m d ->
  JS.add (getMonth LocalTZA (parse s)) (Num 1) = Num m.
Proof.
  intros Htz [Hf Hd]. pose proof (fields_range _ _ _ _ Hf) as [Hm Hd1].
  rewrite (parse_fields _ _ _ _ Hf). cbn [getMonth JS.add JS.lift2].
  unfold MonthFromTime, Day.
  specialize (Htz (MakeDay y (m - 1) d * msPerDay)).
  assert ((MakeDay y (m - 1) d * msPerDay
           + LocalTZA (MakeDay y (m - 1) d * msPerDay)) / msPerDay
          = MakeDay y (m - 1) d) as ->.
  { revert Htz. generalize (LocalTZA (MakeDay y (m - 1) d * msPerDay)).
    generalize (MakeDay y (m - 1) d). change msPerDay with 86400000.
    intros. dlia. }
  rewrite MonthFromDay_MakeDay by lia. f_equal. lia.
Qed.

End DateFacts.

(** ** The daily quota *)

Lemma isEid_inHolidayWindow date y m d :
  Date.fields date = Some (y, m, d) ->
  isEid (Date.parse date) = inHolidayWindow y m d.
Proof.
  intros Hf. pose proof (DateFacts.fields_range _ _ _ _ Hf) as [Hm Hd].
  rewrite (DateFacts.parse_fields _ _ _ _ Hf).
  pose proof (DateFacts.isEid_iff y m d Hm Hd) as Hiff.
  unfold inHolidayWindow.
  destruct (isEid _).
  - destruct (proj1 Hiff eq_refl) as (-> & -> & ? & ?).
    symmetry. rewrite !andb_true_iff, !Z.leb_le. done.
  - symmetry. apply not_true_is_false. intros Hw.
    rewrite !andb_true_iff, !Z.leb_le, !Z.eqb_eq in Hw.
    destruct Hiff as [_ Hback]. discriminate Hback. lia.
Qed.

(** C6: for a date [yyyy-mm-dd], [metQuota] is true exactly when the
    seconds decoded from [activeTime] reach the minimum of that date,
    which is 6h from 10 to 30 April 2025, both days included, and 8h24m
    on every other date; so [metQuota("2025-04-15", "6:30:00")] is true
    and [metQuota("2025-05-15", "6:30:00")] is false. *)
Theorem metQuota_meets_threshold (date activeTime : string) (y m d : Z) :
  Date.fields date = Some (y, m, d) ->
  (metQuota date activeTime = true
   <-> exists secs, parseToSeconds activeTime = Num secs
                    /\ quotaThreshold y m d <= secs)
  /\ metQuota "2025-04-15" "6:30:00" = true
  /\ metQuota "2025-05-15" "6:30:00" = false.
Proof.
  intros Hf. split; [|split; reflexivity].
  unfold metQuota, Date.new, quotaThreshold.
  rewrite (isEid_inHolidayWindow _ _ _ _ Hf).
  change DELIVERY_CONFIG.DAILY_MINIMUM.EID with (6 * 3600).
  change DELIVERY_CONFIG.DAILY_MINIMUM.NORMAL with (8 * 3600 + 24 * 60).
  generalize (if inHolidayWindow y m d then 6 * 3600 else 8 * 3600 + 24 * 60).
  intros threshold. destruct (parseToSeconds activeTime) as [|secs]; cbn [JS.ge JS.cmp2].
  - split; [discriminate | by intros (? & ? & _)].
  - rewrite Z.geb_leb, Z.leb_le. split.
    + intros H. by exists secs.
    + by intros (? & [= <-] & ?).
Qed.

Lemma metQuota_meets_threshold_witness :
  (metQuota "2025-04-30" "6:00:00" = true
   <-> exists secs, parseToSeconds "6:00:00" = Num secs
                    /\ quotaThreshold 2025 4 30 <= secs)
  /\ metQuota "2025-04-15" "6:30:00" = true
  /\ metQuota "2025-05-15" "6:30:00" = false.
Proof.
  apply (metQuota_meets_threshold "2025-04-30" "6:00:00" 2025 4 30).
  reflexivity.
Defined.


(** ** Records produced by [addShiftRecord] *)

Lemma parse_format_number x :
  parseToSeconds (formatToTime x) = clampAtZero x.
Proof.
  destruct x as [|n]; [reflexivity|]. apply CodecFacts.parse_format.
Qed.

Lemma formatToTime_clamp x : formatToTime x = formatToTime (clampAtZero x).
Proof. destruct x as [|n]; [done|]. apply CodecFacts.formatToTime_max. Qed.

Lemma addShiftRecord_new disk textFile shiftObj r disk' :
  addShiftRecord disk textFile shiftObj = (Returns (NewRecord r), disk') ->
  r = newRecordOf shiftObj.
Proof.
  unfold addShiftRecord.
  destruct (readLines _ _) as [lines|]; [|discriminate].
  destruct (existsb _ _); [discriminate|].
  by intros [= <- _].
Qed.

(** C9: the record that [addShiftRecord] produces has
    activeTime = shiftDuration - idleTime, clamped at zero, and its
    metQuota field is the function [metQuota] applied to its own date
    and activeTime. *)
Theorem addShiftRecord_derived_fields disk textFile shiftObj r disk' :
  addShiftRecord disk textFile shiftObj = (Returns (NewRecord r), disk') ->
  exists date shiftDuration idleTime activeTime,
    Rec.date r = JStr date
    /\ Rec.shiftDuration r = JStr shiftDuration
    /\ Rec.idleTime r = JStr idleTime
    /\ Rec.activeTime r = JStr activeTime
    /\ activeTime
       = formatToTime (clampAtZero (JS.sub (parseToSeconds shiftDuration)
                                           (parseToSeconds idleTime)))
    /\ parseToSeconds activeTime
       = clampAtZero (JS.sub (parseToSeconds shiftDuration)
                             (parseToSeconds idleTime))
    /\ Rec.metQuota r = JBool (metQuota date activeTime).
Proof.
  intros ->%addShiftRecord_new.
  eexists _, _, _, _. repeat split; try reflexivity.
  - unfold getActiveTime. apply formatToTime_clamp.
  - unfold getActiveTime. apply parse_format_number.
Qed.

Lemma addShiftRecord_derived_fields_witness :
  exists date shiftDuration idleTime activeTime,
    Rec.date (newRecordOf Examples.mona) = JStr date
    /\ Rec.shiftDuration (newRecordOf Examples.mona) = JStr shiftDuration
    /\ Rec.idleTime (newRecordOf Examples.mona) = JStr idleTime
    /\ Rec.activeTime (newRecordOf Examples.mona) = JStr activeTime
    /\ activeTime
       = formatToTime (clampAtZero (JS.sub (parseToSeconds shiftDuration)
                                           (parseToSeconds idleTime)))
    /\ parseToSeconds activeTime
       = clampAtZero (JS.sub (parseToSeconds shiftDuration)
                             (parseToSeconds idleTime))
    /\ Rec.metQuota (newRecordOf Examples.mona) = JBool (metQuota date activeTime).
Proof.
  apply (addShiftRecord_derived_fields Examples.disk "shifts.txt" Examples.mona
           (newRecordOf Examples.mona)
           (snd (addShiftRecord Examples.disk "shifts.txt" Examples.mona))).
  vm_compute. reflexivity.
Defined.

(** ** The store as the monthly queries read it *)

Lemma index_field parts i :
  (i < length parts)%nat -> JS.index parts i = JStr (field i parts).
Proof.
  intros Hi. unfold JS.index, field.
  destruct (lookup_lt_is_Some_2 parts i Hi) as [x ->]. done.
Qed.

Lemma jsStrictEqStr_true s x : jsStrictEqStr (JStr s) x = true <-> s = x.
Proof. apply String.eqb_eq. Qed.

Lemma jsStrictEqStr_decide s x :
  jsStrictEqStr (JStr s) x = bool_decide (s = x).
Proof.
  simpl. destruct (String.eqb_spec s x).
  - by rewrite bool_decide_eq_true_2.
  - by rewrite bool_decide_eq_false_2.
Qed.

Section CountBonus.
Variable LocalTZA : Z -> Z.
Variable driverID : string.
Variable targetMonth : number.

Let step := countBonusStep LocalTZA driverID targetMonth.

(** The loop of [countBonusPerMonth] against the records it reads:
    the flag records whether a bonus record of the driver was seen, the
    counter counts those of the target month. *)
Lemma countBonus_loop lines driverExists bonusCount :
  let found := bonusRecordsOf driverID (completeRecords (map JS.trim lines)) in
  fold_left step lines (driverExists, bonusCount)
  = (driverExists || bool_decide (found <> []),
     bonusCount
     + Z.of_nat (length (filter (inLocalMonth LocalTZA targetMonth) found))).
Proof.
  revert driverExists bonusCount.
  induction lines as [|line lines IH]; intros driverExists bonusCount.
  - cbn. f_equal; [by rewrite orb_false_r | lia].
  - cbn [fold_left].
    destruct (step (driverExists, bonusCount) line) as [ex' cnt'] eqn:Hstep.
    cbv zeta in IH |- *. rewrite IH. clear IH.
    unfold completeRecords, bonusRecordsOf.
    cbn [map]. rewrite !filter_cons.
    revert Hstep. unfold step, countBonusStep.
    destruct (Nat.ltb_spec (length (JS.split "," (JS.trim line))) 10) as [Hshort|Hlong].
    + rewrite decide_False by lia. by intros [= <- <-].
    + rewrite decide_True by lia. rewrite filter_cons.
      rewrite !index_field by lia.
      rewrite !jsStrictEqStr_decide.
      set (r := JS.split "," (JS.trim line)).
      destruct (decide (field 0 r = driverID /\ field 9 r = "true")) as [[H0 H9]|Hno].
      * rewrite !bool_decide_eq_true_2 by done. cbn [negb orb].
        rewrite filter_cons. cbn [Date.new].
        fold (localMonth LocalTZA (field 2 r)).
        destruct (JS.seq (localMonth LocalTZA (field 2 r)) targetMonth) eqn:Hm.
        -- rewrite decide_True by exact Hm. cbn [andb length].
           intros [= <- <-]. rewrite orb_true_r. f_equal. lia.
        -- rewrite decide_False by (unfold inLocalMonth; by rewrite Hm).
           cbn [andb]. intros [= <- <-]. rewrite orb_true_r. done.
      * assert (negb (bool_decide (field 0 r = driverID))
                || negb (bool_decide (field 9 r = "true")) = true) as ->.
        { apply orb_true_iff.
          destruct (decide (field 0 r = driverID)) as [?|Hne].
          - right. rewrite bool_decide_eq_false_2; [done|]. tauto.
          - left. by rewrite bool_decide_eq_false_2. }
        by intros [= <- <-].
Qed.

End CountBonus.

(** What [countBonusPerMonth] computes on every host: -1 exactly when
    the file is absent or no complete record of the driver anywhere in
    the store has hasBonus equal to [true], whatever its month;
    otherwise the number of the driver's bonus records that the code's
    own test, [getMonth() + 1 === targetMonth], puts in the target
    month.  That test reads the month on the host's local calendar. *)
Lemma countBonusPerMonth_spec LocalTZA (disk : fileSystem)
    (textFile driverID month : string) :
  let records := completeRecords (map JS.trim (storeLines disk textFile)) in
  let found := bonusRecordsOf driverID records in
  exists n,
    countBonusPerMonth LocalTZA disk textFile driverID month = Returns n
    /\ (n = -1 <-> disk !! textFile = None \/ found = [])
    /\ (n <> -1 ->
        n = Z.of_nat (length (filter (inLocalMonth LocalTZA (JS.Number month))
                                found))).
Proof.
  cbv zeta. unfold countBonusPerMonth, storeLines, fs.existsSync, readLines,
    fs.readFileSync.
  destruct (disk !! textFile) as [content|] eqn:Hfile.
  - rewrite bool_decide_eq_true_2 by eauto. cbn [negb].
    rewrite countBonus_loop. cbn [orb].
    set (found := bonusRecordsOf driverID _).
    set (k := length _).
    destruct (decide (found = [])) as [Hnil|Hcons].
    + rewrite bool_decide_eq_false_2 by tauto.
      exists (-1). split; [done|]. split; [tauto | done].
    + rewrite bool_decide_eq_true_2 by done.
      exists (0 + Z.of_nat k). split; [done|]. split; [|lia].
      split; [lia|]. intros [?|?]; [discriminate | done].
  - rewrite bool_decide_eq_false_2 by (intros [? ?]; discriminate).
    exists (-1). split; [done|]. split; [tauto | done].
Qed.

(** On a host at or east of UTC, the month of a calendar date is the
    month the date spells. *)
Lemma localMonth_calendar LocalTZA date y m d :
  (forall t, 0 <= LocalTZA t < Date.msPerDay) ->
  calendarDate date y m d ->
  localMonth LocalTZA date = Num m.
Proof. apply DateFacts.getMonth_calendar. Qed.

(** West of UTC the first day of a month is read into the month
    before: with a five-hour negative offset, 1 April falls in March. *)
Example localMonth_west_of_utc :
  localMonth (fun _ => -18000000) "2025-04-01" = Num 3.
Proof. reflexivity. Qed.

(** C2: the count is not by the month the date spells.  The store holds
    one record of driver D1, a bonus record dated 2025-04-01, a date of
    the calendar in April.  On a host five hours west of UTC,
    [countBonusPerMonth] returns 0 for April and 1 for March: the code
    reads the month with [getMonth()], on the host's local calendar,
    where the UTC midnight that [new Date("2025-04-01")] denotes is
    still 31 March.  A host on UTC counts the record in April, and
    [getUniqueDates], which reads the month with [getUTCMonth()], puts
    the same date in April on every host. *)
Theorem countBonusPerMonth_miscounts_west_of_utc :
  calendarDate "2025-04-01" 2025 4 1
  /\ bonusRecordsOf "D1"
       (completeRecords (map JS.trim (storeLines Examples.aprilDisk "shifts.txt")))
     = [JS.split "," Examples.aprilShift]
  /\ countBonusPerMonth Examples.west Examples.aprilDisk "shifts.txt" "D1" "4"
     = Returns 0
  /\ countBonusPerMonth Examples.west Examples.aprilDisk "shifts.txt" "D1" "3"
     = Returns 1
  /\ countBonusPerMonth Examples.utc Examples.aprilDisk "shifts.txt" "D1" "4"
     = Returns 1
  /\ getUniqueDates Examples.aprilDisk "shifts.txt" (Num 4) "D1"
     = Returns ["2025-04-01"].
Proof.
  split; [split; [reflexivity | vm_compute; discriminate]|].
  split; [by vm_compute|].
  split; [by vm_compute|].
  split; [by vm_compute|].
  split; by vm_compute.
Qed.

Lemma countBonus_sample_runs :
  countBonusPerMonth Examples.utc Examples.disk "shifts.txt" "D1" "01" = Returns 1
  /\ countBonusPerMonth Examples.utc Examples.disk "shifts.txt" "D1" "2" = Returns 0
  /\ countBonusPerMonth Examples.utc Examples.disk "shifts.txt" "D2" "1" = Returns (-1)
  /\ countBonusPerMonth Examples.utc Examples.disk "absent.txt" "D1" "1" = Returns (-1).
Proof. repeat split; reflexivity. Qed.

(** ** Required hours *)



(** The [Set] of [getUniqueDates] holds each date once. *)
Lemma setAdd_fold dates acc :
  NoDup acc ->
  NoDup (fold_left setAdd dates acc)
  /\ (forall x, x ∈ fold_left setAdd dates acc <-> x ∈ acc \/ x ∈ dates).
Proof.
  revert acc. induction dates as [|d dates IH]; intros acc Hacc; cbn [fold_left].
  - split; [done|]. intros x. rewrite elem_of_nil. tauto.
  - unfold setAdd at 2 4. destruct (decide (d ∈ acc)) as [Hin|Hout].
    + rewrite bool_decide_eq_true_2 by done.
      destruct (IH acc Hacc) as [Hnd Hel]. split; [done|].
      intros x. rewrite Hel, elem_of_cons. split; [tauto|].
      intros [?|[->|?]]; tauto.
    + rewrite bool_decide_eq_false_2 by done.
      destruct (IH (acc ++ [d])%list) as [Hnd Hel].
      { apply NoDup_app. split; [done|]. split.
        - intros x Hx ->%list_elem_of_singleton. done.
        - apply NoDup_singleton. }
      split; [done|]. intros x.
      rewrite Hel, elem_of_app, list_elem_of_singleton, elem_of_cons. tauto.
Qed.

Lemma uniqueDates_loop month driverID lines acc :
  fold_left (uniqueDatesStep month driverID) lines acc
  = fold_left setAdd (driverDatesIn driverID month (completeRecords lines)) acc.
Proof.
  revert acc. induction lines as [|line lines IH]; intros acc; [done|].
  cbn [fold_left]. rewrite IH. clear IH.
  unfold driverDatesIn, completeRecords. cbn [map]. rewrite filter_cons.
  unfold uniqueDatesStep.
  destruct (Nat.ltb_spec (length (JS.split "," line)) 10) as [Hshort|Hlong].
  - by rewrite decide_False by lia.
  - rewrite decide_True by lia. rewrite filter_cons.
    rewrite index_field by lia. rewrite jsStrictEqStr_decide.
    set (r := JS.split "," line). fold (field 2 r). fold (utcMonth (field 2 r)).
    destruct (decide (field 0 r = driverID)) as [H0|H0].
    + rewrite bool_decide_eq_true_2 by done. cbn [negb].
      destruct (JS.seq (utcMonth (field 2 r)) month) eqn:Hm.
      * by rewrite decide_True by done.
      * rewrite decide_False; [done|]. intros [_ ?]. congruence.
    + rewrite bool_decide_eq_false_2 by done. cbn [negb].
      rewrite decide_False; [done|]. tauto.
Qed.







Example getRequiredHoursPerMonth_example :
  getRequiredHoursPerMonth Examples.disk "shifts.txt" "driverRates.txt" (Num 1)
    "D1" (Num 1) = Returns "6:24:00".
Proof. reflexivity. Qed.

(** ** Writing the store and reading it back *)

Lemma insertSorted_Permutation {A} (cmp : A -> A -> number) x l :
  insertSorted cmp x l ≡ₚ x :: l.
Proof.
  induction l as [|y l IH]; cbn [insertSorted]; [done|].
  destruct (JS.gt _ _); [|done].
  rewrite IH. apply perm_swap.
Qed.

Lemma sort_Permutation {A} (cmp : A -> A -> number) l : sort cmp l ≡ₚ l.
Proof.
  induction l as [|x l IH]; [done|].
  unfold sort in *. cbn [foldr]. rewrite insertSorted_Permutation.
  by constructor.
Qed.

Lemma endOK_suffix a t :
  JS.trimEnd t = t -> t <> "" -> endOK (a ++ t).
Proof.
  intros Ht Hne p. rewrite <- StringFacts.append_assoc.
  rewrite StringFacts.trimEnd_app; rewrite Ht; done.
Qed.

Lemma endOK_trimEnd s : endOK s -> JS.trimEnd s = s.
Proof. intros H. apply (H ""). Qed.

Lemma join_last sep l x :
  exists p, JS.join sep (l ++ [x])%list = p ++ x.
Proof.
  induction l as [|y l [p Hp]].
  - by exists "".
  - destruct l as [|z l].
    + exists (y ++ sep). cbn. by rewrite StringFacts.append_assoc.
    + exists (y ++ sep ++ p). cbn [app] in *. rewrite StringFacts.join_cons, Hp.
      by rewrite !StringFacts.append_assoc.
Qed.

Lemma join_head sep x l :
  x <> "" -> headOK (JS.join sep (x :: l)) = headOK x.
Proof.
  intros Hx. destruct l as [|y l]; [done|].
  rewrite StringFacts.join_cons. by apply StringFacts.headOK_app.
Qed.

Lemma join_not_empty sep x l : x <> "" -> JS.join sep (x :: l) <> "".
Proof.
  intros Hx. destruct l as [|y l]; [done|].
  rewrite StringFacts.join_cons. destruct x; [done | discriminate].
Qed.

Lemma filter_nonEmpty_all (l : list string) :
  Forall (fun s => s <> "") l ->
  filter (fun s => JS.nonEmpty s = true) l = l.
Proof.
  induction 1 as [|s l Hs _ IH]; [done|].
  rewrite filter_cons, IH. rewrite decide_True; [done|]. by destruct s.
Qed.

(** Tidy lines joined by line feeds are read back unchanged. *)
Lemma linesOf_join (l : list string) :
  l <> [] -> Forall tidyLine l ->
  linesOf (JS.join JS.newline l) = l.
Proof.
  intros Hne Htidy. unfold linesOf, JS.trim.
  assert (Hstart : JS.trimStart (JS.join JS.newline l) = JS.join JS.newline l).
  { apply StringFacts.trimStart_headOK.
    destruct l as [|x l]; [done|].
    inversion Htidy as [|? ? (_ & Hh & Hx & _) _]; subst.
    by rewrite join_head. }
  assert (Hend : JS.trimEnd (JS.join JS.newline l) = JS.join JS.newline l).
  { destruct (exists_last Hne) as (l' & x & ->).
    apply Forall_app in Htidy as [_ Hx].
    inversion Hx as [|? ? (_ & _ & _ & Hend) _]; subst.
    destruct (join_last JS.newline l' x) as [p ->]. apply Hend. }
  rewrite Hstart, Hend.
  rewrite StringFacts.split_join; [| done |].
  - apply filter_nonEmpty_all. eapply Forall_impl; [exact Htidy|].
    by intros s (_ & _ & Hs & _).
  - eapply Forall_impl; [exact Htidy|]. by intros s (Hs & _).
Qed.

(** ** The key of a stored line *)

Lemma sameKey_recordOfLine shiftObj line :
  sameKey shiftObj (recordOfLine line)
  = bool_decide (lineKey line = Some (objDriverID shiftObj, objDate shiftObj)).
Proof.
  unfold sameKey, recordOfLine, lineKey, JS.index. cbn [Rec.driverID Rec.date].
  destruct (JS.split "," line !! 0%nat) as [a|], (JS.split "," line !! 2%nat) as [b|];
    cbn [jsStrictEqStr andb].
  - destruct (String.eqb_spec a (objDriverID shiftObj)) as [->|Ha],
      (String.eqb_spec b (objDate shiftObj)) as [->|Hb]; cbn [andb].
    + by rewrite bool_decide_eq_true_2.
    + rewrite bool_decide_eq_false_2; [done|]. congruence.
    + rewrite bool_decide_eq_false_2; [done|]. congruence.
    + rewrite bool_decide_eq_false_2; [done|]. congruence.
  - rewrite andb_false_r. by rewrite bool_decide_eq_false_2.
  - by rewrite bool_decide_eq_false_2.
  - by rewrite bool_decide_eq_false_2.
Qed.

Lemma lineOfRecord_shape r :
  lineOfRecord r
  = JS.toString (Rec.driverID r) ++ "," ++ JS.toString (Rec.driverName r)
    ++ "," ++ JS.toString (Rec.date r) ++ "," ++ JS.toString (Rec.startTime r)
    ++ "," ++ JS.toString (Rec.endTime r) ++ "," ++ JS.toString (Rec.shiftDuration r)
    ++ "," ++ JS.toString (Rec.idleTime r) ++ "," ++ JS.toString (Rec.activeTime r)
    ++ "," ++ JS.toString (Rec.metQuota r) ++ "," ++ JS.toString (Rec.hasBonus r).
Proof. reflexivity. Qed.

(** A written record is read back with its key, provided its three
    leading fields hold no comma. *)
Lemma lineKey_lineOfRecord r :
  noComma (JS.toString (Rec.driverID r)) = true ->
  noComma (JS.toString (Rec.driverName r)) = true ->
  noComma (JS.toString (Rec.date r)) = true ->
  lineKey (lineOfRecord r)
  = Some (JS.toString (Rec.driverID r), JS.toString (Rec.date r)).
Proof.
  intros H0 H1 H2. unfold lineKey. rewrite lineOfRecord_shape.
  set (rest := JS.toString (Rec.startTime r) ++ _).
  assert (JS.toString (Rec.driverID r) ++ "," ++ JS.toString (Rec.driverName r)
          ++ "," ++ JS.toString (Rec.date r) ++ "," ++ rest
          = JS.toString (Rec.driverID r)
            ++ String "," (JS.toString (Rec.driverName r)
            ++ String "," (JS.toString (Rec.date r) ++ String "," rest))) as ->
    by reflexivity.
  rewrite !StringFacts.split_app by done. done.
Qed.

(** What a line says of a field carries over to the field. *)
Lemma index_toString_keep p sep line i :
  JS.allChars p line = true ->
  JS.allChars p "undefined" = true ->
  JS.allChars p (JS.toString (JS.index (JS.split sep line) i)) = true.
Proof.
  intros Hline Hundef. unfold JS.index.
  destruct (JS.split sep line !! i) as [x|] eqn:Hx; [|done].
  pose proof (StringFacts.split_parts_keep p sep line Hline) as Hall.
  by apply (proj1 (Forall_lookup _ _) Hall i x).
Qed.

Lemma index_toString_noComma line i :
  noComma (JS.toString (JS.index (JS.split "," line) i)) = true.
Proof.
  unfold JS.index, noComma.
  destruct (JS.split "," line !! i) as [x|] eqn:Hx; [|done].
  pose proof (StringFacts.split_parts_no_sep "," line) as Hall.
  by apply (proj1 (Forall_lookup _ _) Hall i x).
Qed.

(** A line that is rewritten from its own first five fields keeps its
    key, when it has a date. *)
Lemma lineKey_rewritten line :
  (3 <= length (JS.split "," line))%nat ->
  lineKey (lineOfRecord (recordOfLine line)) = lineKey line.
Proof.
  intros Hlen. rewrite lineKey_lineOfRecord; try apply index_toString_noComma.
  unfold recordOfLine, lineKey. cbn [Rec.driverID Rec.date].
  rewrite !index_field by lia. unfold field. cbn [JS.toString].
  destruct (lookup_lt_is_Some_2 (JS.split "," line) 0 ltac:(lia)) as [a ->].
  destruct (lookup_lt_is_Some_2 (JS.split "," line) 2 ltac:(lia)) as [b ->].
  done.
Qed.

(** ** Written records are tidy lines *)

Lemma endOK_prepend a s : endOK s -> endOK (a ++ s).
Proof.
  intros Hs p. rewrite <- StringFacts.append_assoc. apply Hs.
Qed.

Lemma endOK_word t : JS.trimEnd t = t -> t <> "" -> endOK t.
Proof. intros Ht Hne. apply (endOK_suffix "" t Ht Hne). Qed.

Lemma lineOfRecord_tidy r :
  noNewline (JS.toString (Rec.driverID r)) = true ->
  noNewline (JS.toString (Rec.driverName r)) = true ->
  noNewline (JS.toString (Rec.date r)) = true ->
  noNewline (JS.toString (Rec.startTime r)) = true ->
  noNewline (JS.toString (Rec.endTime r)) = true ->
  noNewline (JS.toString (Rec.shiftDuration r)) = true ->
  noNewline (JS.toString (Rec.idleTime r)) = true ->
  noNewline (JS.toString (Rec.activeTime r)) = true ->
  noNewline (JS.toString (Rec.metQuota r)) = true ->
  noNewline (JS.toString (Rec.hasBonus r)) = true ->
  headOK (JS.toString (Rec.driverID r)) = true ->
  JS.trimEnd (JS.toString (Rec.hasBonus r)) = JS.toString (Rec.hasBonus r) ->
  JS.toString (Rec.hasBonus r) <> "" ->
  tidyLine (lineOfRecord r).
Proof.
  unfold noNewline. intros H0 H1 H2 H3 H4 H5 H6 H7 H8 H9 Hhead Htail Hne.
  rewrite lineOfRecord_shape. repeat split.
  - rewrite !StringFacts.allChars_app, H0, H1, H2, H3, H4, H5, H6, H7, H8, H9.
    reflexivity.
  - destruct (JS.toString (Rec.driverID r)) eqn:E; [reflexivity|].
    rewrite StringFacts.headOK_app by done. exact Hhead.
  - destruct (JS.toString (Rec.driverID r)); discriminate.
  - repeat apply endOK_prepend. by apply endOK_word.
Qed.

Lemma headOK_first_field line :
  headOK line = true ->
  headOK (JS.toString (JS.index (JS.split "," line) 0)) = true.
Proof.
  unfold JS.index. destruct line as [|c s]; [done|]. cbn [JS.split].
  intros Hc. destruct (Ascii.eqb c ","); [done|].
  destruct (JS.split "," s); exact Hc.
Qed.

(** Every line that [readLines] returns is free of line feeds. *)
Lemma linesOf_noNewline content :
  Forall (fun line => noNewline line = true) (linesOf content).
Proof.
  unfold linesOf. apply Forall_forall. intros line Hin.
  apply list_elem_of_filter in Hin as [_ Hin]. revert line Hin.
  apply Forall_forall, StringFacts.split_parts_no_sep.
Qed.

Lemma rewritten_tidy line :
  noNewline line = true -> headOK line = true ->
  tidyLine (lineOfRecord (recordOfLine line)).
Proof.
  intros Hnl Hhead. unfold recordOfLine.
  apply lineOfRecord_tidy; cbn [Rec.driverID Rec.driverName Rec.date
    Rec.startTime Rec.endTime Rec.shiftDuration Rec.idleTime Rec.activeTime
    Rec.metQuota Rec.hasBonus];
    try (by apply index_toString_keep); try reflexivity; try discriminate.
  by apply headOK_first_field.
Qed.

Lemma fmtChars_noNewline s :
  JS.allChars fmtChar s = true -> noNewline s = true.
Proof. apply StringFacts.allChars_impl, CodecFacts.fmtChar_not_newline. Qed.

Lemma newRecord_tidy shiftObj :
  fitsFormat shiftObj = true -> tidyLine (lineOfRecord (newRecordOf shiftObj)).
Proof.
  unfold fitsFormat. rewrite !andb_true_iff.
  intros ((((((((? & ?) & ?) & ?) & ?) & ?) & ?) & ?) & ?).
  apply lineOfRecord_tidy; cbn [newRecordOf Rec.driverID Rec.driverName Rec.date
    Rec.startTime Rec.endTime Rec.shiftDuration Rec.idleTime Rec.activeTime
    Rec.metQuota Rec.hasBonus JS.toString];
    try done;
    try (apply fmtChars_noNewline, CodecFacts.formatToTime_fmtChars).
  by destruct (metQuota _ _).
Qed.

Lemma newRecord_key shiftObj :
  fitsFormat shiftObj = true ->
  lineKey (lineOfRecord (newRecordOf shiftObj))
  = Some (objDriverID shiftObj, objDate shiftObj).
Proof.
  unfold fitsFormat. rewrite !andb_true_iff.
  intros ((((((((? & ?) & ?) & ?) & ?) & ?) & ?) & ?) & ?).
  by rewrite lineKey_lineOfRecord.
Qed.

(** ** Appending to the store *)

Lemma readLines_ensureFile disk textFile :
  readLines (ensureFile disk textFile) textFile = Returns (storeLines disk textFile).
Proof.
  unfold ensureFile, fs.existsSync, readLines, fs.readFileSync, storeLines,
    fs.writeFileSync.
  destruct (disk !! textFile) as [content|] eqn:E.
  - rewrite bool_decide_eq_true_2 by eauto. cbn [negb]. by rewrite E.
  - rewrite bool_decide_eq_false_2 by (intros [? ?]; discriminate).
    cbn [negb]. by rewrite lookup_insert_eq.
Qed.

Lemma ensureFile_present disk textFile :
  is_Some (disk !! textFile) -> ensureFile disk textFile = disk.
Proof.
  intros H. unfold ensureFile, fs.existsSync.
  by rewrite bool_decide_eq_true_2.
Qed.

Lemma addShiftRecord_cases disk textFile shiftObj :
  addShiftRecord disk textFile shiftObj
  = if existsb (sameKey shiftObj) (map recordOfLine (storeLines disk textFile))
    then (Returns EmptyObject, ensureFile disk textFile)
    else (Returns (NewRecord (newRecordOf shiftObj)),
          <[textFile := JS.join JS.newline (linesAfterAppend disk textFile shiftObj)]>
            (ensureFile disk textFile)).
Proof.
  unfold addShiftRecord. fold (ensureFile disk textFile).
  by rewrite readLines_ensureFile.
Qed.

Lemma existsb_sameKey shiftObj lines :
  existsb (sameKey shiftObj) (map recordOfLine lines) = true
  <-> exists line, line ∈ lines
                   /\ lineKey line = Some (objDriverID shiftObj, objDate shiftObj).
Proof.
  rewrite existsb_exists. split.
  - intros (r & Hin & Hkey). apply in_map_iff in Hin as (line & <- & Hin).
    exists line. split; [by apply list_elem_of_In|].
    rewrite sameKey_recordOfLine in Hkey. by apply bool_decide_eq_true in Hkey.
  - intros (line & Hin & Hkey). exists (recordOfLine line). split.
    + apply in_map. by apply list_elem_of_In.
    + rewrite sameKey_recordOfLine. by apply bool_decide_eq_true.
Qed.

Lemma filter_length_pos {A} (P : A -> Prop) `{!forall x, Decision (P x)} (l : list A) :
  (0 < length (filter P l))%nat <-> exists x, x ∈ l /\ P x.
Proof.
  split.
  - destruct (filter P l) as [|x k] eqn:E; [simpl; lia|]. intros _.
    assert (Hx : x ∈ filter P l) by (rewrite E; left).
    apply list_elem_of_filter in Hx as [? ?]. eauto.
  - intros (x & Hin & HP).
    assert (Hx : x ∈ filter P l) by (by apply list_elem_of_filter).
    destruct (filter P l); [by apply elem_of_nil in Hx | simpl; lia].
Qed.

Lemma linesAfterAppend_Permutation disk textFile shiftObj :
  linesAfterAppend disk textFile shiftObj
  ≡ₚ (map (fun line => lineOfRecord (recordOfLine line)) (storeLines disk textFile)
      ++ [lineOfRecord (newRecordOf shiftObj)])%list.
Proof.
  unfold linesAfterAppend.
  rewrite (Permutation_map lineOfRecord (sort_Permutation byDate _)).
  by rewrite map_app, map_map.
Qed.

Lemma storeOK_lines disk textFile line :
  storeOK disk textFile = true -> line ∈ storeLines disk textFile ->
  noNewline line = true /\ headOK line = true
  /\ (3 <= length (JS.split "," line))%nat.
Proof.
  unfold storeOK. rewrite forallb_forall. intros Hok Hin.
  specialize (Hok line (proj1 (list_elem_of_In _ _) Hin)).
  unfold storedLineOK in Hok. apply andb_prop in Hok as [Hh Hl].
  apply Nat.leb_le in Hl. split; [|done]. clear Hh Hl.
  unfold storeLines in Hin. destruct (disk !! textFile) as [content|].
  - revert line Hin. apply Forall_forall, linesOf_noNewline.
  - by apply elem_of_nil in Hin.
Qed.

(** After a successful append of a well-formed shift to a well-formed
    store, the file reads back as the lines that were written. *)
Lemma linesOf_linesAfterAppend disk textFile shiftObj :
  storeOK disk textFile = true -> fitsFormat shiftObj = true ->
  linesOf (JS.join JS.newline (linesAfterAppend disk textFile shiftObj))
  = linesAfterAppend disk textFile shiftObj.
Proof.
  intros Hstore Hfits.
  pose proof (linesAfterAppend_Permutation disk textFile shiftObj) as Hperm.
  apply linesOf_join.
  - intros Hnil. rewrite Hnil in Hperm.
    apply Permutation_nil_l in Hperm. by destruct (map _ _).
  - eapply Permutation_Forall; [symmetry; exact Hperm|].
    apply Forall_app. split.
    + apply Forall_forall. intros l Hl%list_elem_of_In.
      apply in_map_iff in Hl as (line & <- & Hin%list_elem_of_In).
      destruct (storeOK_lines _ _ _ Hstore Hin) as (? & ? & _).
      by apply rewritten_tidy.
    + constructor; [|constructor]. by apply newRecord_tidy.
Qed.

Lemma filter_none {A} (P : A -> Prop) `{!forall x, Decision (P x)} (l : list A) :
  (forall x, x ∈ l -> ~ P x) -> filter P l = [].
Proof.
  induction l as [|x l IH]; intros Hno; [done|].
  rewrite filter_cons, decide_False by (apply Hno; left).
  apply IH. intros y Hy. apply Hno. by right.
Qed.

Lemma recordsWithKey_zero disk textFile driverID date :
  recordsWithKey disk textFile driverID date = 0%nat ->
  forall line, line ∈ storeLines disk textFile ->
               lineKey line <> Some (driverID, date).
Proof.
  unfold recordsWithKey. intros Hzero line Hin Hkey.
  assert ((0 < length (filter (fun l => lineKey l = Some (driverID, date))
                         (storeLines disk textFile)))%nat); [|lia].
  apply filter_length_pos. eauto.
Qed.

(** C8: when the store already holds a record with the (driverID, date)
    of the new shift, [addShiftRecord] returns the empty object and the
    disk is as it was.  Hence, on a store without that key, appending a
    shift and then a second shift with the same key writes the first,
    rejects the second without a write, and leaves exactly one record
    with that key.  The second part is for fields that fit the
    comma-separated line format. *)
Theorem addShiftRecord_rejects_duplicate (disk : fileSystem)
    (textFile : string) (first second : ShiftObj) :
  ((0 < recordsWithKey disk textFile (objDriverID first) (objDate first))%nat ->
   addShiftRecord disk textFile first = (Returns EmptyObject, disk))
  /\ (storeOK disk textFile = true ->
      fitsFormat first = true ->
      objDriverID second = objDriverID first ->
      objDate second = objDate first ->
      recordsWithKey disk textFile (objDriverID first) (objDate first) = 0%nat ->
      exists disk1,
        addShiftRecord disk textFile first
        = (Returns (NewRecord (newRecordOf first)), disk1)
        /\ addShiftRecord disk1 textFile second = (Returns EmptyObject, disk1)
        /\ recordsWithKey disk1 textFile (objDriverID first) (objDate first)
           = 1%nat).
Proof.
  split.
  - intros Hdup. rewrite addShiftRecord_cases.
    apply filter_length_pos in Hdup as (line & Hin & Hkey).
    rewrite (proj2 (existsb_sameKey first _)) by eauto.
    rewrite ensureFile_present; [done|].
    unfold storeLines in Hin. destruct (disk !! textFile); [eauto|].
    by apply elem_of_nil in Hin.
  - intros Hstore Hfits Hid Hdate Hzero.
    pose proof (recordsWithKey_zero _ _ _ _ Hzero) as Hfresh.
    set (content1 := JS.join JS.newline (linesAfterAppend disk textFile first)).
    exists (<[textFile := content1]> (ensureFile disk textFile)).
    assert (Hlines : storeLines (<[textFile := content1]> (ensureFile disk textFile))
                       textFile
                     = linesAfterAppend disk textFile first).
    { unfold storeLines. rewrite lookup_insert_eq.
      by apply linesOf_linesAfterAppend. }
    pose proof (linesAfterAppend_Permutation disk textFile first) as Hperm.
    split; [|split].
    + rewrite addShiftRecord_cases.
      destruct (existsb _ _) eqn:E; [|done].
      apply existsb_sameKey in E as (line & Hin & Hkey).
      by destruct (Hfresh line Hin).
    + rewrite addShiftRecord_cases, Hlines.
      rewrite (proj2 (existsb_sameKey second _)).
      * rewrite ensureFile_present; [done|]. rewrite lookup_insert_eq. eauto.
      * exists (lineOfRecord (newRecordOf first)). split.
        -- rewrite Hperm. apply elem_of_app. right. left.
        -- rewrite Hid, Hdate. by apply newRecord_key.
    + unfold recordsWithKey. rewrite Hlines.
      rewrite (Permutation_length
                 (filter_Permutation
                    (fun line => lineKey line
                                 = Some (objDriverID first, objDate first))
                    _ _ Hperm)).
      rewrite filter_app, length_app.
      rewrite (filter_none _ (map _ _)).
      * rewrite filter_cons, decide_True by (by apply newRecord_key). done.
      * intros l Hl%list_elem_of_In.
        apply in_map_iff in Hl as (line & <- & Hin%list_elem_of_In).
        destruct (storeOK_lines _ _ _ Hstore Hin) as (_ & _ & Hlen).
        rewrite lineKey_rewritten by done. by apply Hfresh.
Qed.

Lemma addShiftRecord_rejects_duplicate_witness :
  addShiftRecord Examples.disk "shifts.txt"
    (mkShiftObj "D1" "Ali" "2025-01-05" "9:00:00 am" "6:00:00 pm")
  = (Returns EmptyObject, Examples.disk)
  /\ exists disk1,
       addShiftRecord Examples.disk "shifts.txt" Examples.mona
       = (Returns (NewRecord (newRecordOf Examples.mona)), disk1)
       /\ addShiftRecord disk1 "shifts.txt"
            (mkShiftObj "D2" "Mona" "2025-01-02" "9:00:00 am" "5:00:00 pm")
          = (Returns EmptyObject, disk1)
       /\ recordsWithKey disk1 "shifts.txt" "D2" "2025-01-02" = 1%nat.
Proof.
  split.
  - apply (proj1 (addShiftRecord_rejects_duplicate Examples.disk "shifts.txt"
                    (mkShiftObj "D1" "Ali" "2025-01-05" "9:00:00 am" "6:00:00 pm")
                    (mkShiftObj "D1" "Ali" "2025-01-05" "9:00:00 am" "6:00:00 pm"))).
    vm_compute. constructor.
  - apply (proj2 (addShiftRecord_rejects_duplicate Examples.disk "shifts.txt"
                    Examples.mona
                    (mkShiftObj "D2" "Mona" "2025-01-02" "9:00:00 am" "5:00:00 pm")));
      reflexivity.
Defined.

(** Outside the line format the store does not keep one record per
    key: with a comma in the driver name the date leaves the third
    field, the second append is not seen as a duplicate and writes a
    second line, and no line of the store reads back with the key. *)
Lemma addShiftRecord_duplicate_comma_in_name :
  let shift := mkShiftObj "D3" "Smith, John" "2025-02-01" "9:00:00 am" "5:00:00 pm" in
  let '(result1, disk1) := addShiftRecord ∅ "shifts.txt" shift in
  let '(result2, disk2) := addShiftRecord disk1 "shifts.txt" shift in
  result1 = Returns (NewRecord (newRecordOf shift))
  /\ result2 = Returns (NewRecord (newRecordOf shift))
  /\ result2 <> Returns EmptyObject
  /\ disk2 !! "shifts.txt" <> disk1 !! "shifts.txt"
  /\ length (storeLines disk2 "shifts.txt") = 2%nat
  /\ recordsWithKey disk2 "shifts.txt" "D3" "2025-02-01" <> 1%nat.
Proof.
  vm_compute.
  split; [reflexivity|]. split; [reflexivity|]. split; [discriminate|].
  split; [discriminate|]. split; [reflexivity | discriminate].
Qed.

(** Each condition of the line format is needed.  A driverID with a
    space in front is trimmed away when it heads the file, and the
    second append goes through; a line feed inside a field makes two
    lines with the key out of one append; a stored line with a space in
    front, or without a date, reads back with the key of the new shift
    once it is rewritten. *)
Example addShiftRecord_format_conditions_needed :
  (let shift := mkShiftObj " D9" "Omar" "2025-02-01" "9:00:00 am" "5:00:00 pm" in
   let '(_, disk1) := addShiftRecord ∅ "shifts.txt" shift in
   fst (addShiftRecord disk1 "shifts.txt" shift)
   = Returns (NewRecord (newRecordOf shift)))
  /\ (let shift :=
        mkShiftObj "D9" "Omar" "2025-02-01" "9:00:00 am"
          ("5:00:00 pm" ++ JS.newline ++ "D9,Omar,2025-02-01") in
      let '(_, disk1) := addShiftRecord ∅ "shifts.txt" shift in
      recordsWithKey disk1 "shifts.txt" "D9" "2025-02-01" = 2%nat)
  /\ (let disk : fileSystem :=
        {[ "shifts.txt" :=
             "A1,Aya,2025-03-01,9:00:00 am,5:00:00 pm,8:00:00,0:00:00,8:00:00,false,false"
             ++ JS.newline
             ++ " D1,Ali,2025-01-01,9:00:00 am,5:00:00 pm,8:00:00,0:00:00,8:00:00,false,false" ]} in
      let shift := mkShiftObj "D1" "Ali" "2025-01-01" "9:00:00 am" "5:00:00 pm" in
      let '(_, disk1) := addShiftRecord disk "shifts.txt" shift in
      recordsWithKey disk "shifts.txt" "D1" "2025-01-01" = 0%nat
      /\ recordsWithKey disk1 "shifts.txt" "D1" "2025-01-01" = 2%nat)
  /\ (let disk : fileSystem := {[ "shifts.txt" := "D1" ]} in
      let shift := mkShiftObj "D1" "Ali" "undefined" "9:00:00 am" "5:00:00 pm" in
      let '(_, disk1) := addShiftRecord disk "shifts.txt" shift in
      recordsWithKey disk "shifts.txt" "D1" "undefined" = 0%nat
      /\ recordsWithKey disk1 "shifts.txt" "D1" "undefined" = 2%nat).
Proof. vm_compute. done. Qed.

(** ** Total active hours, when the file exists *)

Lemma totalActive_loop LocalTZA driverID month lines acc :
  fold_left (totalActiveStep LocalTZA driverID month) lines acc
  = fold_left JS.add
      (map (fun r => parseToSeconds (field 7 r))
           (filter (fun r => field 0 r = driverID /\ inLocalMonth LocalTZA month r)
                   (completeRecords lines)))
      acc.
Proof.
  revert acc. induction lines as [|line lines IH]; intros acc; [done|].
  cbn [fold_left]. rewrite IH. clear IH.
  unfold completeRecords. cbn [map]. rewrite filter_cons.
  unfold totalActiveStep.
  destruct (Nat.ltb_spec (length (JS.split "," line)) 10) as [Hshort|Hlong].
  - by rewrite decide_False by lia.
  - rewrite decide_True by lia. rewrite filter_cons.
    rewrite !index_field by lia. rewrite jsStrictEqStr_decide.
    set (r := JS.split "," line). cbn [Date.new].
    fold (field 7 r). fold (localMonth LocalTZA (field 2 r)).
    destruct (decide (field 0 r = driverID)) as [H0|H0].
    + rewrite bool_decide_eq_true_2 by done. cbn [negb].
      destruct (JS.seq (localMonth LocalTZA (field 2 r)) month) eqn:Hm.
      * by rewrite decide_True by done.
      * rewrite decide_False; [done|]. intros [_ Hr]. unfold inLocalMonth in Hr.
        congruence.
    + rewrite bool_decide_eq_false_2 by done. cbn [negb].
      rewrite decide_False; [done|]. tauto.
Qed.

(** X20: with the file on disk, [getTotalActiveHoursPerMonth] returns
    the formatted sum of the activeTime of the driver's complete
    records of the month, the month read on the host's calendar. *)
Theorem getTotalActiveHoursPerMonth_present LocalTZA (disk : fileSystem)
    textFile driverID month content :
  disk !! textFile = Some content ->
  getTotalActiveHoursPerMonth LocalTZA disk textFile driverID month
  = Returns
      (formatToTime
         (sumNumbers
            (map (fun r => parseToSeconds (field 7 r))
                 (filter (fun r => field 0 r = driverID
                                   /\ inLocalMonth LocalTZA month r)
                         (completeRecords (linesOf content)))))).
Proof.
  intros H. unfold getTotalActiveHoursPerMonth, readLines, fs.readFileSync.
  rewrite H. by rewrite totalActive_loop.
Qed.

Lemma getTotalActiveHoursPerMonth_present_witness :
  getTotalActiveHoursPerMonth Examples.utc Examples.disk "shifts.txt" "D1" (Num 1)
  = Returns
      (formatToTime
         (sumNumbers
            (map (fun r => parseToSeconds (field 7 r))
                 (filter (fun r => field 0 r = "D1"
                                   /\ inLocalMonth Examples.utc (Num 1) r)
                         (completeRecords (linesOf Examples.shifts)))))).
Proof.
  apply (getTotalActiveHoursPerMonth_present Examples.utc Examples.disk
           "shifts.txt" "D1" (Num 1) Examples.shifts).
  reflexivity.
Defined.

(** ** Dates of the calendar in the required hours *)

Lemma utcMonth_calendar date y m d :
  calendarDate date y m d -> utcMonth date = Num m.
Proof. apply DateFacts.getUTCMonth_calendar. Qed.

Lemma dailyMinimum_threshold date y m d :
  Date.fields date = Some (y, m, d) -> dailyMinimum date = quotaThreshold y m d.
Proof.
  intros Hf. unfold dailyMinimum, quotaThreshold.
  by rewrite (isEid_inHolidayWindow _ _ _ _ Hf).
Qed.

(** * Further properties *)

(** ** Idle time in closed form *)

Lemma idleStep_closed e i cur :
  cur < e ->
  idleStep e (i, cur)
  = (i + idleUpTo (Z.min e (cur / DAY_SECONDS * DAY_SECONDS + DAY_SECONDS))
       - idleUpTo cur,
     Z.min e (cur / DAY_SECONDS * DAY_SECONDS + DAY_SECONDS)).
Proof.
  intros Hlt. unfold idleStep, idleUpTo.
  change DELIVERY_CONFIG.HOURS.START with 28800.
  change DELIVERY_CONFIG.HOURS.END with 79200.
  change DAY_SECONDS with 86400.
  set (seg := Z.min e (cur / 86400 * 86400 + 86400)).
  assert (Hseg : cur < seg <= cur / 86400 * 86400 + 86400).
  { unfold seg. Z.div_mod_to_equations. lia. }
  f_equal.
  destruct (Z.ltb_spec cur (cur / 86400 * 86400 + 28800)),
    (Z.gtb_spec seg (cur / 86400 * 86400 + 79200));
    Z.div_mod_to_equations; lia.
Qed.

(** The loop adds up the idle seconds between the cursor and the end
    of the shift. *)
Lemma idleLoop_closed fuel e i cur :
  cur <= e ->
  (cur < e -> e / DAY_SECONDS - cur / DAY_SECONDS + 1 <= Z.of_nat fuel) ->
  idleLoop fuel e (i, cur) = (i + idleUpTo e - idleUpTo cur, e).
Proof.
  revert i cur. induction fuel as [|fuel IH]; intros i cur Hle Hfuel.
  - cbn [idleLoop]. destruct (Z.lt_ge_cases cur e) as [Hlt|Hge].
    + specialize (Hfuel Hlt). change DAY_SECONDS with 86400 in Hfuel.
      Z.div_mod_to_equations. lia.
    + assert (cur = e) as -> by lia. f_equal. lia.
  - destruct (Z.lt_ge_cases cur e) as [Hlt|Hge].
    + rewrite IdleFacts.idleLoop_step by done.
      rewrite idleStep_closed by done.
      specialize (Hfuel Hlt). change DAY_SECONDS with 86400 in *.
      rewrite IH.
      * f_equal. lia.
      * lia.
      * intros Hlt'. Z.div_mod_to_equations. lia.
    + rewrite IdleFacts.idleLoop_done by done.
      assert (cur = e) as -> by lia. f_equal. lia.
Qed.

(** Idle time grows with the interval and never faster than the clock. *)
Lemma idleUpTo_growth a b :
  a <= b -> 0 <= idleUpTo b - idleUpTo a <= b - a.
Proof.
  intros Hab. unfold idleUpTo.
  change DELIVERY_CONFIG.HOURS.START with 28800.
  change DELIVERY_CONFIG.HOURS.END with 79200.
  change DAY_SECONDS with 86400.
  Z.div_mod_to_equations. lia.
Qed.

(** [getIdleTime] through [idleUpTo]: the idle seconds up to the end of
    the shift less the idle seconds up to its start. *)
Lemma getIdleTime_idleUpTo (startTime endTime : string) (s e : Z) :
  parseToSeconds startTime = Num s ->
  parseToSeconds endTime = Num e ->
  getIdleTime startTime endTime
  = formatToTime (Num (idleUpTo (wrappedEnd s e) - idleUpTo s)).
Proof.
  intros Hs He. rewrite (getIdleTime_seconds _ _ _ _ Hs He).
  destruct (Z.le_gt_cases s (wrappedEnd s e)) as [Hle|Hgt].
  - rewrite idleLoop_closed; [| done | apply IdleFacts.idleFuel_enough].
    cbn [fst]. do 2 f_equal; lia.
  - rewrite IdleFacts.idleLoop_done by (cbn [snd]; lia). cbn [fst].
    pose proof (idleUpTo_growth (wrappedEnd s e) s ltac:(lia)).
    destruct (Z.eq_dec (idleUpTo (wrappedEnd s e) - idleUpTo s) 0) as [->|Hne];
      [done|].
    by rewrite (CodecFacts.formatToTime_negative (idleUpTo _ - idleUpTo s)) by lia.
Qed.

(** X2: [getIdleTime] in closed form.  The idle time of a shift is the
    idle time from the start of day 0 up to its end less that up to its
    start, where every full day counts ten hours and the current day
    counts its seconds before 8:00 and after 22:00.  For a shift within
    one day this is the part before 8:00 plus the part after 22:00. *)
Theorem getIdleTime_closed_form (startTime endTime : string) (s e : Z) :
  parseToSeconds startTime = Num s ->
  parseToSeconds endTime = Num e ->
  getIdleTime startTime endTime
  = formatToTime (Num (idleUpTo (wrappedEnd s e) - idleUpTo s))
  /\ (0 <= s <= e -> e <= DAY_SECONDS ->
      getIdleTime startTime endTime
      = formatToTime
          (Num ((Z.min e DELIVERY_CONFIG.HOURS.START
                 - Z.min s DELIVERY_CONFIG.HOURS.START)
                + (Z.max e DELIVERY_CONFIG.HOURS.END
                   - Z.max s DELIVERY_CONFIG.HOURS.END)))).
Proof.
  intros Hs He. split; [by apply getIdleTime_idleUpTo|].
  intros Hse Hday. rewrite (getIdleTime_idleUpTo _ _ _ _ Hs He).
  do 2 f_equal.
  assert (wrappedEnd s e = e) as ->
    by (unfold wrappedEnd; destruct (Z.ltb_spec e s); lia).
  unfold idleUpTo.
  change DELIVERY_CONFIG.HOURS.START with 28800.
  change DELIVERY_CONFIG.HOURS.END with 79200.
  change DAY_SECONDS with 86400 in *.
  Z.div_mod_to_equations. lia.
Qed.

Lemma getIdleTime_closed_form_witness :
  getIdleTime "6:00:00 am" "11:00:00 pm"
  = formatToTime (Num (idleUpTo (wrappedEnd 21600 82800) - idleUpTo 21600))
  /\ getIdleTime "6:00:00 am" "11:00:00 pm"
     = formatToTime
         (Num ((Z.min 82800 DELIVERY_CONFIG.HOURS.START
                - Z.min 21600 DELIVERY_CONFIG.HOURS.START)
               + (Z.max 82800 DELIVERY_CONFIG.HOURS.END
                  - Z.max 21600 DELIVERY_CONFIG.HOURS.END))).
Proof.
  destruct (getIdleTime_closed_form "6:00:00 am" "11:00:00 pm" 21600 82800
              eq_refl eq_refl) as [Hclosed Hday].
  split; [exact Hclosed|]. apply Hday; [lia|]. vm_compute. discriminate.
Defined.

(** X3: the three durations of a shift add up: idle time is never negative
    and never more than the shift, and active time is what is left, so
    the clamp of [getActiveTime] is never reached. *)
Theorem shift_times_add_up (startTime endTime : string) (s e : Z) :
  parseToSeconds startTime = Num s ->
  parseToSeconds endTime = Num e ->
  exists D I A,
    parseToSeconds (getShiftDuration startTime endTime) = Num D
    /\ parseToSeconds (getIdleTime startTime endTime) = Num I
    /\ parseToSeconds (getActiveTime (getShiftDuration startTime endTime)
                                     (getIdleTime startTime endTime)) = Num A
    /\ 0 <= I <= D
    /\ A + I = D.
Proof.
  intros Hs He.
  rewrite (getIdleTime_idleUpTo _ _ _ _ Hs He).
  rewrite (getShiftDuration_seconds _ _ _ _ Hs He).
  unfold getActiveTime. rewrite !CodecFacts.parse_format.
  cbn [JS.sub JS.lift2]. rewrite CodecFacts.parse_format.
  eexists _, _, _. split; [done|]. split; [done|]. split; [done|].
  destruct (Z.le_gt_cases s (wrappedEnd s e)) as [Hle|Hgt].
  - pose proof (idleUpTo_growth s (wrappedEnd s e) Hle). lia.
  - pose proof (idleUpTo_growth (wrappedEnd s e) s ltac:(lia)). lia.
Qed.

Lemma shift_times_add_up_witness :
  exists D I A,
    parseToSeconds (getShiftDuration "6:00:00 am" "11:30:00 pm") = Num D
    /\ parseToSeconds (getIdleTime "6:00:00 am" "11:30:00 pm") = Num I
    /\ parseToSeconds (getActiveTime (getShiftDuration "6:00:00 am" "11:30:00 pm")
                                     (getIdleTime "6:00:00 am" "11:30:00 pm")) = Num A
    /\ 0 <= I <= D
    /\ A + I = D.
Proof.
  apply (shift_times_add_up "6:00:00 am" "11:30:00 pm" 21600 84600); reflexivity.
Defined.

(** X1: for two instants of the day the duration is the time from the
    first to the next occurrence of the second: the difference modulo
    24 hours. *)
Theorem getShiftDuration_modulo_day (startTime endTime : string) (s e : Z) :
  parseToSeconds startTime = Num s ->
  parseToSeconds endTime = Num e ->
  0 <= s < DAY_SECONDS -> 0 <= e < DAY_SECONDS ->
  getShiftDuration startTime endTime
  = formatToTime (Num ((e - s) mod DAY_SECONDS)).
Proof.
  intros Hs He Hsr Her. rewrite (getShiftDuration_seconds _ _ _ _ Hs He).
  do 2 f_equal. unfold wrappedEnd. change DAY_SECONDS with 86400 in *.
  destruct (Z.ltb_spec e s); Z.div_mod_to_equations; lia.
Qed.

Lemma getShiftDuration_modulo_day_witness :
  getShiftDuration "10:30:00 pm" "6:15:00 am"
  = formatToTime (Num ((22500 - 81000) mod DAY_SECONDS)).
Proof.
  apply (getShiftDuration_modulo_day "10:30:00 pm" "6:15:00 am" 81000 22500);
    [reflexivity | reflexivity | |]; change DAY_SECONDS with 86400; lia.
Defined.

(** ** Clock strings *)

Lemma mapChars_app f a b :
  JS.mapChars f (a ++ b) = JS.mapChars f a ++ JS.mapChars f b.
Proof. induction a as [|c a IH]; cbn; [done|]. by rewrite IH. Qed.

Lemma digits_not_empty z : JS.digits z <> "".
Proof.
  unfold JS.digits. destruct (Z.to_N z) as [|p]; [done|].
  cbn [N.to_uint]. pose proof (DecimalPos.Unsigned.to_uint_nonnil p) as Hp.
  by destruct (Pos.to_uint p).
Qed.

(** The three numbers of a time token [h:mm:ss]. *)
Lemma time_token_numbers h m s :
  0 <= h -> 0 <= m -> 0 <= s ->
  map JS.Number
      (JS.split ":" (JS.digits h ++ ":" ++ JS.padStart 2 "0" (JS.digits m)
                     ++ ":" ++ JS.padStart 2 "0" (JS.digits s)))
  = [Num h; Num m; Num s].
Proof.
  intros Hh Hm Hs.
  change (JS.digits h ++ ":" ++ JS.padStart 2 "0" (JS.digits m)
          ++ ":" ++ JS.padStart 2 "0" (JS.digits s))
    with (JS.digits h ++ String ":" (JS.padStart 2 "0" (JS.digits m)
          ++ String ":" (JS.padStart 2 "0" (JS.digits s)))).
  rewrite StringFacts.split_app.
  2: { eapply StringFacts.allChars_impl; [apply CodecFacts.isDigit_not_colon|].
       apply CodecFacts.digits_allDigits. }
  rewrite StringFacts.split_app.
  2: { eapply StringFacts.allChars_impl; [apply CodecFacts.isDigit_not_colon|].
       apply CodecFacts.padStart_digits. }
  rewrite StringFacts.split_no_sep.
  2: { eapply StringFacts.allChars_impl; [apply CodecFacts.isDigit_not_colon|].
       apply CodecFacts.padStart_digits. }
  cbn [map].
  by rewrite CodecFacts.Number_digits, !CodecFacts.Number_padStart.
Qed.

Lemma time_token_chars h m s :
  JS.allChars timeChar
    (JS.digits h ++ ":" ++ JS.padStart 2 "0" (JS.digits m)
     ++ ":" ++ JS.padStart 2 "0" (JS.digits s)) = true.
Proof.
  rewrite !StringFacts.allChars_app.
  rewrite (StringFacts.allChars_impl JS.isDigit timeChar _
             CodecFacts.isDigit_timeChar (CodecFacts.digits_allDigits h)).
  rewrite (StringFacts.allChars_impl JS.isDigit timeChar _
             CodecFacts.isDigit_timeChar (CodecFacts.padStart_digits m)).
  rewrite (StringFacts.allChars_impl JS.isDigit timeChar _
             CodecFacts.isDigit_timeChar (CodecFacts.padStart_digits s)).
  reflexivity.
Qed.

(** What [parseToSeconds] makes of the text around the time token: a
    modifier in either case, after one space. *)
Lemma clockString_parts h m s modifier lowered :
  JS.toLowerCase modifier = lowered ->
  JS.trimEnd (String " " modifier) = String " " modifier ->
  JS.split " " lowered = [lowered] ->
  JS.split " " (JS.toLowerCase (JS.trim (clockString h m s modifier)))
  = [JS.digits h ++ ":" ++ JS.padStart 2 "0" (JS.digits m)
     ++ ":" ++ JS.padStart 2 "0" (JS.digits s); lowered].
Proof.
  intros Hlow Hend Hsplit. unfold clockString.
  set (T := JS.digits h ++ ":" ++ JS.padStart 2 "0" (JS.digits m)
            ++ ":" ++ JS.padStart 2 "0" (JS.digits s)).
  assert (HT : JS.allChars timeChar T = true) by apply time_token_chars.
  assert (Hshape : JS.digits h ++ ":" ++ JS.padStart 2 "0" (JS.digits m) ++ ":"
                   ++ JS.padStart 2 "0" (JS.digits s) ++ " " ++ modifier
                   = T ++ String " " modifier).
  { unfold T. by rewrite !StringFacts.append_assoc. }
  rewrite Hshape. unfold JS.trim.
  rewrite StringFacts.trimStart_headOK.
  2: { rewrite StringFacts.headOK_app.
       - unfold T. pose proof (digits_not_empty h) as Hne.
         pose proof (CodecFacts.digits_allDigits h) as Hd.
         destruct (JS.digits h) as [|c r]; [done|]. cbn in Hd |- *.
         apply andb_prop in Hd as [Hc _].
         by apply CodecFacts.fmtChar_not_ws, CodecFacts.timeChar_fmtChar,
           CodecFacts.isDigit_timeChar.
       - unfold T. pose proof (digits_not_empty h).
         by destruct (JS.digits h). }
  rewrite StringFacts.trimEnd_app, Hend by (rewrite Hend; discriminate).
  unfold JS.toLowerCase. rewrite mapChars_app.
  fold (JS.toLowerCase T). rewrite StringFacts.toLowerCase_fixed.
  2: { revert HT. apply StringFacts.allChars_impl, CodecFacts.timeChar_lower. }
  change (JS.mapChars JS.lowerChar (String " " modifier))
    with (String " " (JS.toLowerCase modifier)).
  rewrite Hlow, StringFacts.split_app, Hsplit; [done|].
  revert HT. apply StringFacts.allChars_impl, CodecFacts.timeChar_not_space.
Qed.

(** X4: twelve-hour decoding.  With [am], hour 12 is hour 0; with [pm],
    every hour but 12 is twelve hours later; the modifier may be in
    capitals.  So 12:00:00 am is midnight and 12:00:00 pm is noon. *)
Theorem parseToSeconds_clockString (h m s : Z) :
  0 <= h < 24 -> 0 <= m < 60 -> 0 <= s < 60 ->
  let am := Num ((if h =? 12 then 0 else h) * 3600 + m * 60 + s) in
  let pm := Num ((if h =? 12 then 12 else h + 12) * 3600 + m * 60 + s) in
  parseToSeconds (clockString h m s "am") = am
  /\ parseToSeconds (clockString h m s "AM") = am
  /\ parseToSeconds (clockString h m s "pm") = pm
  /\ parseToSeconds (clockString h m s "PM") = pm.
Proof.
  intros Hh Hm Hs am pm. unfold parseToSeconds.
  rewrite (clockString_parts h m s "am" "am"),
    (clockString_parts h m s "AM" "am"),
    (clockString_parts h m s "pm" "pm"),
    (clockString_parts h m s "PM" "pm") by reflexivity.
  cbn [lookup list_lookup default from_option id].
  rewrite time_token_numbers by lia.
  unfold am, pm. cbn -[Z.mul Z.add Z.eqb JS.sne JS.seq].
  unfold JS.sne, JS.seq, JS.cmp2.
  destruct (Z.eqb_spec h 12) as [->|Hne]; cbn -[Z.mul Z.add Z.eqb];
    repeat split; reflexivity.
Qed.

Lemma parseToSeconds_clockString_witness :
  parseToSeconds (clockString 12 5 9 "am") = Num (0 * 3600 + 5 * 60 + 9)
  /\ parseToSeconds (clockString 12 5 9 "AM") = Num (0 * 3600 + 5 * 60 + 9)
  /\ parseToSeconds (clockString 12 5 9 "pm") = Num (12 * 3600 + 5 * 60 + 9)
  /\ parseToSeconds (clockString 12 5 9 "PM") = Num (12 * 3600 + 5 * 60 + 9).
Proof.
  apply (parseToSeconds_clockString 12 5 9); lia.
Defined.

(** ** Reading back what was written *)

Lemma lastChar_None s : lastChar s = None <-> s = "".
Proof.
  destruct s as [|c r]; cbn; [done|]. by destruct (lastChar r).
Qed.

Lemma lastChar_app a b :
  lastChar (a ++ b)
  = match lastChar b with Some c => Some c | None => lastChar a end.
Proof.
  induction a as [|c a IH]; cbn.
  - by destruct (lastChar b).
  - rewrite IH. by destruct (lastChar b), (lastChar a).
Qed.

Lemma lastOK_app a b : b <> "" -> lastOK (a ++ b) = lastOK b.
Proof.
  intros Hb. unfold lastOK. rewrite lastChar_app.
  destruct (lastChar b) eqn:E; [done|]. by apply lastChar_None in E.
Qed.

Lemma trimEnd_lastOK s : lastOK s = true -> JS.trimEnd s = s.
Proof.
  unfold lastOK. induction s as [|c r IH]; cbn; [done|].
  destruct (lastChar r) as [d|] eqn:E.
  - intros Hd. rewrite (IH Hd). destruct r; [done|done].
  - apply lastChar_None in E as ->. cbn. intros Hc%negb_true_iff. by rewrite Hc.
Qed.

Lemma trimEnd_result s : JS.trimEnd s = "" \/ lastOK (JS.trimEnd s) = true.
Proof.
  induction s as [|c r IH]; cbn; [by left|].
  destruct (JS.trimEnd r) as [|d r'] eqn:E.
  - destruct (JS.isWhiteSpace c) eqn:Hc; [by left|].
    right. unfold lastOK. cbn. by rewrite Hc.
  - right. destruct IH as [|IH]; [done|].
    change (String c (String d r')) with (String c "" ++ String d r').
    by rewrite lastOK_app.
Qed.

Lemma headOK_trimStart s : headOK (JS.trimStart s) = true.
Proof.
  induction s as [|c r IH]; cbn [JS.trimStart]; [done|].
  destruct (JS.isWhiteSpace c) eqn:Hc; [done|]. cbn [headOK]. by rewrite Hc.
Qed.

Lemma headOK_trimEnd s : headOK s = true -> headOK (JS.trimEnd s) = true.
Proof.
  destruct s as [|c r]; cbn [headOK JS.trimEnd]; [done|]. intros Hc.
  destruct (JS.trimEnd r); [|exact Hc].
  destruct (JS.isWhiteSpace c) eqn:E; [done|]. cbn [headOK]. by rewrite E.
Qed.

Lemma headOK_trim s : headOK (JS.trim s) = true.
Proof. apply headOK_trimEnd, headOK_trimStart. Qed.

Lemma lastOK_trim s : JS.trim s = "" \/ lastOK (JS.trim s) = true.
Proof. apply trimEnd_result. Qed.

Lemma isWhiteSpace_newline c :
  negb (JS.isWhiteSpace c) = true -> Ascii.eqb c "010" = false.
Proof. destruct c as [[] [] [] [] [] [] [] []]; vm_compute; congruence. Qed.

(** The last piece of a split carries the last character. *)
Lemma split_last sep s c :
  lastChar s = Some c -> Ascii.eqb c sep = false ->
  exists l x, JS.split sep s = (l ++ [x])%list /\ lastChar x = Some c.
Proof.
  revert c. induction s as [|a r IH]; intros c; [done|].
  cbn [lastChar JS.split]. destruct (lastChar r) as [d|] eqn:E.
  - intros [= ->] Hc. destruct (IH c eq_refl Hc) as (l & x & Hsplit & Hx).
    rewrite Hsplit. destruct (Ascii.eqb a sep).
    + by exists ("" :: l), x.
    + destruct l as [|h l]; cbn [app].
      * exists [], (String a x). split; [done|]. cbn. by rewrite Hx.
      * by exists (String a h :: l), x.
  - apply lastChar_None in E as ->. intros [= ->] Hc. rewrite Hc. cbn.
    by exists [], (String c "").
Qed.

Lemma filter_nonEmpty_snoc (l : list string) x :
  x <> "" ->
  filter (fun s => JS.nonEmpty s = true) (l ++ [x])%list
  = (filter (fun s => JS.nonEmpty s = true) l ++ [x])%list.
Proof.
  intros Hx. rewrite filter_app, filter_cons, decide_True; [done|].
  by destruct x.
Qed.

(** The lines of a file, as [readLines] cuts them, are readable lines. *)
Lemma linesOf_readable content : readableLines (linesOf content).
Proof.
  unfold readableLines, linesOf. split; [|split].
  - apply Forall_forall. intros l Hl.
    apply list_elem_of_filter in Hl as [Hne Hl]. split.
    + by destruct l.
    + clear Hne. revert l Hl.
      apply Forall_forall, StringFacts.split_parts_no_sep.
  - pose proof (headOK_trim content) as Hhead.
    destruct (JS.trim content) as [|c r]; [done|]. cbn in Hhead.
    cbn [JS.split]. rewrite (isWhiteSpace_newline c Hhead).
    pose proof (StringFacts.split_not_nil "010" r).
    destruct (JS.split "010" r) as [|h t]; [done|].
    rewrite filter_cons, decide_True by done.
    intros x [= <-]. exact Hhead.
  - destruct (lastOK_trim content) as [->|Hlast]; [done|].
    unfold lastOK in Hlast.
    destruct (lastChar (JS.trim content)) as [c|] eqn:Hc; [|done].
    destruct (split_last "010" _ c Hc (isWhiteSpace_newline c Hlast))
      as (l & x & -> & Hx).
    rewrite filter_nonEmpty_snoc by (intros ->; discriminate).
    rewrite last_snoc. intros y [= <-]. unfold lastOK. by rewrite Hx.
Qed.

(** Readable lines, joined by line feeds, are read back unchanged. *)
Lemma linesOf_join_readable (lines : list string) :
  readableLines lines -> linesOf (JS.join JS.newline lines) = lines.
Proof.
  intros (Hall & Hhead & Hlast).
  destruct lines as [|x0 l0] eqn:Elines; [done|]. rewrite <- Elines in *.
  assert (Hne : lines <> []) by (by rewrite Elines).
  unfold linesOf, JS.trim.
  assert (Hstart : JS.trimStart (JS.join JS.newline lines) = JS.join JS.newline lines).
  { apply StringFacts.trimStart_headOK. rewrite Elines in *.
    inversion Hall as [|? ? [Hx _] _]; subst.
    rewrite join_head by done. by apply Hhead. }
  assert (Hend : JS.trimEnd (JS.join JS.newline lines) = JS.join JS.newline lines).
  { apply trimEnd_lastOK.
    destruct (exists_last Hne) as (l' & x & Hl').
    rewrite Hl' in *. apply Forall_app in Hall as [_ Hx].
    inversion Hx as [|? ? [Hxne _] _]; subst.
    destruct (join_last JS.newline l' x) as [p ->].
    rewrite lastOK_app by done. apply Hlast. by rewrite last_snoc. }
  rewrite Hstart, Hend.
  rewrite StringFacts.split_join; [| done |].
  - apply filter_nonEmpty_all. eapply Forall_impl; [exact Hall|].
    by intros s [Hs _].
  - eapply Forall_impl; [exact Hall|]. by intros s [_ Hs].
Qed.

(** X7: writing back the lines that were read and reading again gives
    the same lines: blank lines and white space around the text are
    gone after the first pass, and nothing else changes. *)
Theorem readLines_rewrite_roundtrip (disk : fileSystem) (filePath : string)
    (lines : list string) :
  readLines disk filePath = Returns lines ->
  readLines (fs.writeFileSync disk filePath (JS.join JS.newline lines)) filePath
  = Returns lines.
Proof.
  unfold readLines, fs.readFileSync, fs.writeFileSync.
  destruct (disk !! filePath) as [content|]; [|discriminate].
  intros [= <-]. rewrite lookup_insert_eq. f_equal.
  apply linesOf_join_readable, linesOf_readable.
Qed.

Lemma readLines_rewrite_roundtrip_witness :
  readLines (fs.writeFileSync Examples.disk "shifts.txt"
               (JS.join JS.newline (linesOf Examples.shifts))) "shifts.txt"
  = Returns (linesOf Examples.shifts).
Proof.
  apply (readLines_rewrite_roundtrip Examples.disk "shifts.txt"). reflexivity.
Defined.

(** ** [setBonus] *)

Lemma join_cons_char sep c h t :
  JS.join sep (String c h :: t) = String c (JS.join sep (h :: t)).
Proof. by destruct t. Qed.

(** Joining the pieces of a split gives the string back. *)
Lemma join_split sep s : JS.join (String sep "") (JS.split sep s) = s.
Proof.
  induction s as [|c r IH]; [done|]. cbn [JS.split].
  pose proof (StringFacts.split_not_nil sep r) as Hne.
  destruct (Ascii.eqb_spec c sep) as [->|Hc].
  - destruct (JS.split sep r) as [|h t]; [done|].
    by rewrite StringFacts.join_cons, IH.
  - destruct (JS.split sep r) as [|h t]; [done|].
    by rewrite join_cons_char, IH.
Qed.

Lemma allChars_join p sep l :
  JS.allChars p sep = true ->
  Forall (fun x => JS.allChars p x = true) l ->
  JS.allChars p (JS.join sep l) = true.
Proof.
  intros Hsep. induction 1 as [|x l Hx Hl IH]; [done|].
  destruct l as [|y l]; [exact Hx|].
  by rewrite StringFacts.join_cons, !StringFacts.allChars_app, Hx, Hsep, IH.
Qed.

Lemma join_snoc sep l x :
  l <> [] -> JS.join sep (l ++ [x])%list = JS.join sep l ++ sep ++ x.
Proof.
  induction l as [|y l IH]; [done|]. intros _.
  destruct l as [|z l]; [done|].
  cbn [app] in *. rewrite !StringFacts.join_cons, IH by done.
  by rewrite !StringFacts.append_assoc.
Qed.

Lemma lastChar_join_snoc l x :
  l <> [] ->
  lastChar (JS.join "," (l ++ [x])%list)
  = match lastChar x with Some c => Some c | None => Some ","%char end.
Proof.
  intros Hl. rewrite join_snoc, !lastChar_app by done.
  by destruct (lastChar x).
Qed.

Lemma headOK_join_cons p0 y l :
  headOK (JS.join "," (p0 :: y :: l)) = headOK (p0 ++ ",").
Proof.
  rewrite StringFacts.join_cons. by destruct p0.
Qed.

Section SetBonus.
Variables driverID date : string.
Variable newValue : bool.

Lemma setBonusLine_fields line :
  setBonusLine driverID date newValue line
  = (bonusLine driverID date newValue line,
     isBonusTarget driverID date (JS.split "," line)).
Proof.
  unfold setBonusLine, bonusLine, bonusUpdate, isBonusTarget.
  set (parts := JS.split "," line).
  destruct (Nat.ltb_spec (length parts) 10) as [Hshort|Hlong].
  - rewrite bool_decide_eq_false_2 by lia. unfold parts. by rewrite join_split.
  - destruct (lookup_lt_is_Some_2 parts 0 ltac:(lia)) as [a Ha].
    destruct (lookup_lt_is_Some_2 parts 2 ltac:(lia)) as [b Hb].
    unfold JS.index. rewrite Ha, Hb. cbn [jsStrictEqStr].
    destruct (String.eqb_spec a driverID) as [->|Hna],
      (String.eqb_spec b date) as [->|Hnb]; cbn [andb].
    + by rewrite bool_decide_eq_true_2.
    + rewrite bool_decide_eq_false_2; [done|]. intros (_ & _ & ?). congruence.
    + rewrite bool_decide_eq_false_2; [done|]. intros (_ & ? & _). congruence.
    + rewrite bool_decide_eq_false_2; [done|]. intros (_ & ? & _). congruence.
Qed.

(** The two outcomes of [setBonus]: the disk as it was, or the file
    rewritten line by line. *)
Lemma setBonus_cases (disk : fileSystem) textFile :
  setBonus disk textFile driverID date newValue
  = (Returns tt,
     if existsb (fun line => isBonusTarget driverID date (JS.split "," line))
                (storeLines disk textFile)
     then <[textFile :=
              JS.join JS.newline
                (map (bonusLine driverID date newValue)
                     (storeLines disk textFile))]> disk
     else disk).
Proof.
  unfold setBonus, storeLines, fs.existsSync, readLines, fs.readFileSync,
    fs.writeFileSync.
  destruct (disk !! textFile) as [content|] eqn:E.
  - rewrite bool_decide_eq_true_2 by eauto. cbn [negb].
    rewrite (map_ext _ (fun line =>
                          (bonusLine driverID date newValue line,
                           isBonusTarget driverID date (JS.split "," line))))
      by apply setBonusLine_fields.
    rewrite !map_map. cbn [fst snd].
    assert (existsb snd
              (map (fun line =>
                      (bonusLine driverID date newValue line,
                       isBonusTarget driverID date (JS.split "," line)))
                   (linesOf content))
            = existsb (fun line => isBonusTarget driverID date (JS.split "," line))
                      (linesOf content))
      as ->.
    { induction (linesOf content) as [|l ls IH]; [done|]. cbn. by rewrite IH. }
    by destruct (existsb _ _).
  - by rewrite bool_decide_eq_false_2 by (intros [? ?]; discriminate).
Qed.

Lemma bonusUpdate_length parts :
  length (bonusUpdate driverID date newValue parts) = length parts.
Proof.
  unfold bonusUpdate. destruct (isBonusTarget _ _ _); [|done].
  apply length_insert.
Qed.

Lemma bonusUpdate_noComma parts :
  Forall (fun x => noComma x = true) parts ->
  Forall (fun x => noComma x = true) (bonusUpdate driverID date newValue parts).
Proof.
  intros H. unfold bonusUpdate. destruct (isBonusTarget _ _ _); [|done].
  apply Forall_insert; [done|]. by destruct newValue.
Qed.

(** A rewritten line splits into the updated fields. *)
Lemma split_bonusLine line :
  JS.split "," (bonusLine driverID date newValue line)
  = bonusUpdate driverID date newValue (JS.split "," line).
Proof.
  unfold bonusLine. apply StringFacts.split_join.
  - intros Hnil. apply (f_equal length) in Hnil. rewrite bonusUpdate_length in Hnil.
    pose proof (StringFacts.split_not_nil "," line).
    by destruct (JS.split "," line).
  - apply bonusUpdate_noComma, StringFacts.split_parts_no_sep.
Qed.

Lemma bonusLine_not_target line :
  isBonusTarget driverID date (JS.split "," line) = false ->
  bonusLine driverID date newValue line = line.
Proof.
  intros H. unfold bonusLine, bonusUpdate. rewrite H. apply join_split.
Qed.

Lemma bonusLine_readable line :
  (line <> "" /\ noNewline line = true ->
   bonusLine driverID date newValue line <> ""
   /\ noNewline (bonusLine driverID date newValue line) = true)
  /\ (headOK line = true -> headOK (bonusLine driverID date newValue line) = true)
  /\ (lastOK line = true -> lastOK (bonusLine driverID date newValue line) = true).
Proof.
  destruct (isBonusTarget driverID date (JS.split "," line)) eqn:Ht.
  2: { rewrite bonusLine_not_target by done. tauto. }
  unfold bonusLine, bonusUpdate. rewrite Ht.
  apply bool_decide_eq_true in Ht as (Hlen & _ & _).
  pose proof (join_split "," line) as Hline.
  set (parts := JS.split "," line) in *.
  split; [|split].
  - intros [_ Hnl]. split.
    + destruct parts as [|p0 [|p1 rest]]; cbn in Hlen; try lia.
      cbn [list_insert insert]. rewrite StringFacts.join_cons.
      destruct p0; discriminate.
    + apply allChars_join; [done|]. apply Forall_insert.
      * by apply StringFacts.split_parts_keep.
      * by destruct newValue.
  - rewrite <- Hline at 1.
    destruct parts as [|p0 [|p1 rest]]; cbn in Hlen; try lia.
    change (<[9%nat:=boolToString newValue]> (p0 :: p1 :: rest))
      with (p0 :: <[8%nat:=boolToString newValue]> (p1 :: rest)).
    cbn [list_insert insert]. by rewrite !headOK_join_cons.
  - rewrite <- Hline at 1.
    assert (Hne : parts <> []) by (destruct parts; [cbn in Hlen; lia | done]).
    destruct (exists_last Hne) as (l' & x & Hparts). rewrite Hparts in *.
    rewrite length_app in Hlen. cbn in Hlen.
    assert (Hl' : l' <> []) by (destruct l'; [cbn in Hlen; lia | done]).
    unfold lastOK. rewrite lastChar_join_snoc by done.
    destruct (decide (length l' = 9%nat)) as [H9|H9].
    + rewrite insert_app_r_alt by lia. rewrite H9. cbn [list_insert insert Nat.sub].
      rewrite lastChar_join_snoc by done. intros _. by destruct newValue.
    + rewrite insert_app_l by lia.
      rewrite lastChar_join_snoc; [done|].
      intros Hnil. apply (f_equal length) in Hnil.
      rewrite length_insert in Hnil. by destruct l'.
Qed.

Lemma map_bonusLine_readable lines :
  readableLines lines ->
  readableLines (map (bonusLine driverID date newValue) lines).
Proof.
  intros (Hall & Hhead & Hlast). split; [|split].
  - apply Forall_map. eapply Forall_impl; [exact Hall|].
    intros l. apply bonusLine_readable.
  - destruct lines as [|l ls]; [done|]. cbn. intros x [= <-].
    apply bonusLine_readable. by apply Hhead.
  - destruct lines as [|l0 ls0] eqn:E; [done|]. rewrite <- E in *.
    assert (Hne : lines <> []) by (by rewrite E).
    destruct (exists_last Hne) as (l' & x & ->).
    rewrite map_app. cbn [map]. rewrite last_snoc. intros y [= <-].
    apply bonusLine_readable, Hlast. by rewrite last_snoc.
Qed.

(** After [setBonus] the file reads back as its old lines, rewritten. *)
Lemma setBonus_storeLines (disk : fileSystem) textFile :
  storeLines (snd (setBonus disk textFile driverID date newValue)) textFile
  = map (bonusLine driverID date newValue) (storeLines disk textFile).
Proof.
  rewrite setBonus_cases. cbn [snd].
  destruct (existsb _ _) eqn:E.
  - unfold storeLines at 1. rewrite lookup_insert_eq.
    apply linesOf_join_readable, map_bonusLine_readable.
    unfold storeLines. destruct (disk !! textFile); [apply linesOf_readable|].
    split; [constructor | split; intros x; discriminate].
  - symmetry. rewrite <- (map_id (storeLines disk textFile)) at 2.
    apply map_ext_in. intros l Hl. apply bonusLine_not_target.
    apply not_true_is_false. intros Ht.
    assert (existsb (fun line => isBonusTarget driverID date (JS.split "," line))
              (storeLines disk textFile) = true); [|congruence].
    apply existsb_exists. eauto.
Qed.

End SetBonus.

Lemma isBonusTarget_update driverID date newValue parts :
  isBonusTarget driverID date (bonusUpdate driverID date newValue parts)
  = isBonusTarget driverID date parts.
Proof.
  unfold bonusUpdate.
  destruct (isBonusTarget driverID date parts) eqn:Ht; [|done].
  apply bool_decide_eq_true in Ht as (Hlen & H0 & H2).
  apply bool_decide_eq_true. rewrite length_insert.
  by rewrite !list_lookup_insert_ne by lia.
Qed.

Lemma bonusUpdate_twice driverID date v v' parts :
  bonusUpdate driverID date v' (bonusUpdate driverID date v parts)
  = bonusUpdate driverID date v' parts.
Proof.
  unfold bonusUpdate at 1. rewrite isBonusTarget_update.
  unfold bonusUpdate.
  destruct (isBonusTarget driverID date parts); [|done].
  apply list_insert_insert_eq.
Qed.

Lemma bonusLine_twice driverID date v v' line :
  bonusLine driverID date v' (bonusLine driverID date v line)
  = bonusLine driverID date v' line.
Proof.
  unfold bonusLine at 1. rewrite split_bonusLine, bonusUpdate_twice. done.
Qed.

Lemma existsb_target_bonusLine driverID date v lines :
  existsb (fun line => isBonusTarget driverID date (JS.split "," line))
          (map (bonusLine driverID date v) lines)
  = existsb (fun line => isBonusTarget driverID date (JS.split "," line)) lines.
Proof.
  induction lines as [|l ls IH]; [done|]. cbn [map existsb].
  by rewrite split_bonusLine, isBonusTarget_update, IH.
Qed.

(** X8: [setBonus] never throws, and afterwards the file reads back as
    the records it held before, field by field, except that the tenth
    field of every complete record of the driver on the date is the
    text of the new value.  Lines with fewer than ten fields and the
    records of other drivers or dates keep all their fields. *)
Theorem setBonus_changes_only_the_flag (disk : fileSystem)
    (textFile driverID date : string) (newValue : bool) :
  fst (setBonus disk textFile driverID date newValue) = Returns tt
  /\ map (JS.split ",")
         (storeLines (snd (setBonus disk textFile driverID date newValue)) textFile)
     = map (bonusUpdate driverID date newValue)
           (map (JS.split ",") (storeLines disk textFile)).
Proof.
  split; [by rewrite setBonus_cases|].
  rewrite setBonus_storeLines, !map_map. apply map_ext.
  intros line. apply split_bonusLine.
Qed.

(** X9: when no line of the file is a complete record of the driver on
    the date (in particular when the file is missing or empty),
    [setBonus] returns without writing: the disk is as it was. *)
Theorem setBonus_without_target_writes_nothing (disk : fileSystem)
    (textFile driverID date : string) (newValue : bool) :
  Forall (fun line => isBonusTarget driverID date (JS.split "," line) = false)
         (storeLines disk textFile) ->
  setBonus disk textFile driverID date newValue = (Returns tt, disk).
Proof.
  intros Hnone. rewrite setBonus_cases.
  destruct (existsb _ _) eqn:E; [|done].
  apply existsb_exists in E as (line & Hin & Ht).
  rewrite Forall_forall in Hnone. apply list_elem_of_In in Hin.
  rewrite (Hnone line Hin) in Ht. discriminate.
Qed.

Lemma setBonus_without_target_writes_nothing_witness :
  setBonus Examples.disk "shifts.txt" "D1" "2025-01-06" true
  = (Returns tt, Examples.disk).
Proof.
  apply (setBonus_without_target_writes_nothing Examples.disk "shifts.txt"
           "D1" "2025-01-06" true).
  vm_compute. repeat constructor.
Defined.

(** X10: of two calls of [setBonus] for the same driver and date the
    second one decides: the disk after both is the disk after the
    second alone.  With equal values, a repeated call changes nothing
    more. *)
Theorem setBonus_last_write_wins (disk : fileSystem)
    (textFile driverID date : string) (first second : bool) :
  snd (setBonus (snd (setBonus disk textFile driverID date first))
                textFile driverID date second)
  = snd (setBonus disk textFile driverID date second).
Proof.
  rewrite (setBonus_cases driverID date second
             (snd (setBonus disk textFile driverID date first))).
  rewrite setBonus_storeLines, existsb_target_bonusLine.
  rewrite (setBonus_cases driverID date second disk). cbn [snd].
  destruct (existsb _ _) eqn:E.
  - rewrite map_map.
    rewrite (map_ext _ (bonusLine driverID date second))
      by (intros; apply bonusLine_twice).
    rewrite setBonus_cases, E. cbn [snd]. apply insert_insert_eq.
  - by rewrite setBonus_cases, E.
Qed.

(** ** The order of the records *)

Lemma gt_difference a b :
  JS.gt (Num (a - b)) (Num 0) = bool_decide (b < a).
Proof.
  cbn [JS.gt JS.cmp2]. rewrite Z.gtb_ltb.
  destruct (Z.ltb_spec 0 (a - b)).
  - by rewrite bool_decide_eq_true_2 by lia.
  - by rewrite bool_decide_eq_false_2 by lia.
Qed.

Lemma filter_all {A} (P : A -> Prop) `{!forall x, Decision (P x)} (l : list A) :
  Forall P l -> filter P l = l.
Proof.
  induction 1 as [|x l Hx _ IH]; [done|].
  by rewrite filter_cons, decide_True, IH.
Qed.

Section SortByKey.
Context {A : Type} (cmp : A -> A -> number) (key : A -> Z) (valid : A -> Prop).
Hypothesis cmp_key :
  forall a b, valid a -> valid b -> cmp a b = Num (key a - key b).

Lemma insertSorted_front x l :
  valid x -> Forall valid l -> Forall (fun y => key x <= key y) l ->
  insertSorted cmp x l = x :: l.
Proof.
  intros Hx Hl Hle. destruct l as [|y l]; [done|].
  apply Forall_cons in Hl as [Hy _]. apply Forall_cons in Hle as [Hxy _].
  cbn [insertSorted]. rewrite cmp_key, gt_difference by done.
  by rewrite bool_decide_eq_false_2 by lia.
Qed.

Lemma insertSorted_valid x l :
  valid x -> Forall valid l -> Forall valid (insertSorted cmp x l).
Proof.
  intros Hx Hl.
  eapply Permutation_Forall; [symmetry; apply insertSorted_Permutation|].
  by constructor.
Qed.

Lemma sort_valid l : Forall valid l -> Forall valid (sort cmp l).
Proof.
  intros Hl. eapply Permutation_Forall; [symmetry; apply sort_Permutation | exact Hl].
Qed.

Lemma insertSorted_sorted x l :
  valid x -> Forall valid l ->
  StronglySorted (fun a b => key a <= key b) l ->
  StronglySorted (fun a b => key a <= key b) (insertSorted cmp x l).
Proof.
  intros Hx Hl Hs. induction Hs as [|y l Hs IH Hy].
  - cbn. by repeat constructor.
  - apply Forall_cons in Hl as [Hvy Hl]. cbn [insertSorted].
    rewrite cmp_key, gt_difference by done.
    destruct (decide (key y < key x)) as [Hlt|Hge].
    + rewrite bool_decide_eq_true_2 by done. constructor; [by apply IH|].
      eapply Permutation_Forall; [symmetry; apply insertSorted_Permutation|].
      constructor; [lia | exact Hy].
    + rewrite bool_decide_eq_false_2 by done.
      constructor; [by constructor|].
      constructor; [lia|]. eapply Forall_impl; [exact Hy|]. cbn. intros; lia.
Qed.

Lemma sort_sorted l :
  Forall valid l -> StronglySorted (fun a b => key a <= key b) (sort cmp l).
Proof.
  induction 1 as [|x l Hx Hl IH]; [constructor|].
  cbn [sort foldr]. apply insertSorted_sorted; [done | by apply sort_valid | exact IH].
Qed.

(** Insertion leaves the order of the elements of one key alone. *)
Lemma insertSorted_stable k x l :
  valid x -> Forall valid l ->
  filter (fun a => key a = k) (insertSorted cmp x l)
  = filter (fun a => key a = k) (x :: l).
Proof.
  intros Hx Hl. induction Hl as [|y l Hy Hl IH]; [done|].
  cbn [insertSorted]. rewrite cmp_key, gt_difference by done.
  destruct (decide (key y < key x)) as [Hlt|Hge].
  - rewrite bool_decide_eq_true_2 by done.
    rewrite (filter_cons _ y), IH, !filter_cons.
    destruct (decide (key y = k)), (decide (key x = k)); try done. lia.
  - by rewrite bool_decide_eq_false_2 by done.
Qed.

Lemma sort_stable k l :
  Forall valid l ->
  filter (fun a => key a = k) (sort cmp l) = filter (fun a => key a = k) l.
Proof.
  induction 1 as [|x l Hx Hl IH]; [done|].
  cbn [sort foldr]. rewrite insertSorted_stable by (done || by apply sort_valid).
  fold (sort cmp l). by rewrite !filter_cons, IH.
Qed.

(** Sorting after a push onto a sorted array: the new element goes
    behind the elements that are not greater. *)
Lemma sort_push x l :
  valid x -> Forall valid l ->
  StronglySorted (fun a b => key a <= key b) l ->
  sort cmp (l ++ [x])
  = (filter (fun a => key a <= key x) l ++ x :: filter (fun a => key x < key a) l)%list.
Proof.
  intros Hx Hl Hs. unfold sort. rewrite foldr_app. cbn [foldr insertSorted].
  induction Hs as [|a l Hs IH Ha]; [done|].
  apply Forall_cons in Hl as [Hva Hl]. cbn [foldr]. rewrite IH by done.
  rewrite !filter_cons.
  destruct (decide (key a <= key x)) as [Hle|Hgt].
  - rewrite decide_False by lia. cbn [app].
    apply insertSorted_front; [done| |].
    + apply Forall_app. split; [|constructor; [done|]];
        (eapply Forall_impl; [|intros ? HH; exact HH]);
        apply Forall_forall; intros y [_ Hy]%list_elem_of_filter;
        rewrite Forall_forall in Hl; by apply Hl.
    + apply Forall_app. split; [|constructor; [done|]];
        apply Forall_forall; intros y [_ Hy]%list_elem_of_filter;
        rewrite Forall_forall in Ha; by apply Ha.
  - rewrite decide_True by lia.
    rewrite (filter_none (fun a => key a <= key x)).
    2: { intros y Hy. rewrite Forall_forall in Ha. specialize (Ha y Hy). cbn in Ha. lia. }
    rewrite (filter_all (fun a => key x < key a)).
    2: { eapply Forall_impl; [exact Ha|]. cbn. intros; lia. }
    cbn [app insertSorted]. rewrite cmp_key, gt_difference by done.
    rewrite bool_decide_eq_true_2 by lia. f_equal.
    by apply insertSorted_front.
Qed.

End SortByKey.

Lemma byDate_difference a b :
  hasValidDate a -> hasValidDate b ->
  byDate a b = Num (timeValue a - timeValue b).
Proof.
  unfold hasValidDate, byDate, timeValue.
  by destruct (Date.new (Rec.date a)), (Date.new (Rec.date b)).
Qed.

(** X11: when the date of every record parses, the array after
    [records.sort(...)] holds the same records in ascending date order,
    and records of one date keep the order they had. *)
Theorem sort_byDate_ascending_stable (records : list Rec.t) :
  Forall hasValidDate records ->
  sort byDate records ≡ₚ records
  /\ StronglySorted notLater (sort byDate records)
  /\ forall t, filter (fun r => timeValue r = t) (sort byDate records)
               = filter (fun r => timeValue r = t) records.
Proof.
  intros Hvalid. split; [apply sort_Permutation|]. split.
  - by apply (sort_sorted byDate timeValue hasValidDate byDate_difference).
  - intros t. by apply (sort_stable byDate timeValue hasValidDate byDate_difference).
Qed.

Lemma sort_byDate_ascending_stable_witness :
  let records :=
    [recordOfLine "D1,Ali,2025-01-05"; recordOfLine "D2,Mona,2025-01-02";
     recordOfLine "D3,Omar,2025-01-05"] in
  sort byDate records ≡ₚ records
  /\ StronglySorted notLater (sort byDate records)
  /\ forall t, filter (fun r => timeValue r = t) (sort byDate records)
               = filter (fun r => timeValue r = t) records.
Proof.
  apply (sort_byDate_ascending_stable
           [recordOfLine "D1,Ali,2025-01-05"; recordOfLine "D2,Mona,2025-01-02";
            recordOfLine "D3,Omar,2025-01-05"]).
  repeat constructor; unfold hasValidDate; vm_compute; discriminate.
Defined.

(** ** What [addShiftRecord] writes *)

Lemma insert_ensureFile (disk : fileSystem) textFile content :
  <[textFile := content]> (ensureFile disk textFile) = <[textFile := content]> disk.
Proof.
  unfold ensureFile, fs.writeFileSync.
  destruct (negb _); [apply insert_insert_eq | done].
Qed.

Lemma no_record_with_key disk textFile shiftObj :
  recordsWithKey disk textFile (objDriverID shiftObj) (objDate shiftObj) = 0%nat ->
  existsb (sameKey shiftObj) (map recordOfLine (storeLines disk textFile)) = false.
Proof.
  intros Hzero. apply not_true_is_false. intros Hex.
  apply existsb_sameKey in Hex as (line & Hin & Hkey).
  by apply (recordsWithKey_zero _ _ _ _ Hzero line Hin).
Qed.

(** X12: a shift with a new key, added to a file whose records are in
    ascending date order, is written behind the records dated up to its
    own date and in front of the later ones; the file is replaced by
    these lines joined with line feeds.  Dates are the ones that parse. *)
Theorem addShiftRecord_inserts_by_date (disk : fileSystem) (textFile : string)
    (shiftObj : ShiftObj) :
  let records := map recordOfLine (storeLines disk textFile) in
  let newRecord := newRecordOf shiftObj in
  Forall hasValidDate records ->
  hasValidDate newRecord ->
  StronglySorted notLater records ->
  recordsWithKey disk textFile (objDriverID shiftObj) (objDate shiftObj) = 0%nat ->
  addShiftRecord disk textFile shiftObj
  = (Returns (NewRecord newRecord),
     <[textFile :=
         JS.join JS.newline
           (map lineOfRecord
              (filter (fun r => notLater r newRecord) records
               ++ newRecord :: filter (fun r => ~ notLater r newRecord) records))]>
       disk).
Proof.
  intros records newRecord Hvalid Hnew Hsorted Hzero.
  rewrite addShiftRecord_cases, no_record_with_key by done.
  rewrite insert_ensureFile. unfold linesAfterAppend.
  fold records newRecord.
  rewrite (sort_push byDate timeValue hasValidDate byDate_difference) by done.
  do 6 f_equal. apply list_filter_iff. intros r. unfold notLater. lia.
Qed.

Lemma addShiftRecord_inserts_by_date_witness :
  addShiftRecord Examples.disk "shifts.txt" Examples.mona
  = (Returns (NewRecord (newRecordOf Examples.mona)),
     <["shifts.txt" :=
         JS.join JS.newline
           (map lineOfRecord
              (filter (fun r => notLater r (newRecordOf Examples.mona))
                      (map recordOfLine (storeLines Examples.disk "shifts.txt"))
               ++ newRecordOf Examples.mona
                  :: filter (fun r => ~ notLater r (newRecordOf Examples.mona))
                       (map recordOfLine (storeLines Examples.disk "shifts.txt"))))]>
       Examples.disk).
Proof.
  apply (addShiftRecord_inserts_by_date Examples.disk "shifts.txt" Examples.mona).
  - repeat constructor. unfold hasValidDate. vm_compute. discriminate.
  - unfold hasValidDate. vm_compute. discriminate.
  - repeat constructor.
  - vm_compute. reflexivity.
Defined.

(** X13: on a file that is missing, empty or blank, [addShiftRecord]
    does not throw: it returns the new record and the file holds
    exactly the line of that record. *)
Theorem addShiftRecord_into_empty_store (disk : fileSystem) (textFile : string)
    (shiftObj : ShiftObj) :
  storeLines disk textFile = [] ->
  addShiftRecord disk textFile shiftObj
  = (Returns (NewRecord (newRecordOf shiftObj)),
     <[textFile := lineOfRecord (newRecordOf shiftObj)]> disk).
Proof.
  intros Hempty. rewrite addShiftRecord_cases, insert_ensureFile.
  unfold linesAfterAppend. by rewrite Hempty.
Qed.

Lemma addShiftRecord_into_empty_store_witness :
  addShiftRecord ∅ "shifts.txt" Examples.mona
  = (Returns (NewRecord (newRecordOf Examples.mona)),
     <["shifts.txt" := lineOfRecord (newRecordOf Examples.mona)]> ∅).
Proof.
  apply (addShiftRecord_into_empty_store ∅ "shifts.txt" Examples.mona).
  reflexivity.
Defined.

(** X14: [addShiftRecord] and [setBonus] write to the file they are
    given and to no other: every other path of the disk holds what it
    held, and a missing one stays missing. *)
Theorem writers_keep_other_files (disk : fileSystem)
    (textFile other driverID date : string) (shiftObj : ShiftObj)
    (newValue : bool) :
  other <> textFile ->
  snd (addShiftRecord disk textFile shiftObj) !! other = disk !! other
  /\ snd (setBonus disk textFile driverID date newValue) !! other = disk !! other.
Proof.
  intros Hne. split.
  - rewrite addShiftRecord_cases.
    assert (ensureFile disk textFile !! other = disk !! other) as Hens.
    { unfold ensureFile, fs.writeFileSync.
      destruct (negb _); [by rewrite lookup_insert_ne | done]. }
    destruct (existsb _ _); cbn [snd]; [done|].
    by rewrite lookup_insert_ne.
  - rewrite setBonus_cases. cbn [snd].
    destruct (existsb _ _); [by rewrite lookup_insert_ne | done].
Qed.

Lemma writers_keep_other_files_witness :
  snd (addShiftRecord Examples.disk "shifts.txt" Examples.mona) !! "driverRates.txt"
  = Examples.disk !! "driverRates.txt"
  /\ snd (setBonus Examples.disk "shifts.txt" "D1" "2025-01-05" false)
       !! "driverRates.txt"
     = Examples.disk !! "driverRates.txt".
Proof.
  apply (writers_keep_other_files Examples.disk "shifts.txt" "driverRates.txt"
           "D1" "2025-01-05" Examples.mona false).
  discriminate.
Defined.

(** ** [setBonus] followed by [countBonusPerMonth] *)

Lemma trimEnd_cons_keep c x :
  JS.isWhiteSpace c = false -> JS.trimEnd (String c x) = String c (JS.trimEnd x).
Proof. intros Hc. cbn [JS.trimEnd]. rewrite Hc. by destruct (JS.trimEnd x). Qed.

Lemma allChars_trimEnd p x :
  JS.allChars p x = true -> JS.allChars p (JS.trimEnd x) = true.
Proof.
  induction x as [|c x IH]; [done|]. cbn [JS.allChars JS.trimEnd].
  intros [Hc Hx]%andb_prop. specialize (IH Hx).
  destruct (JS.trimEnd x) eqn:E.
  - destruct (JS.isWhiteSpace c); [done|]. cbn. by rewrite Hc.
  - cbn [JS.allChars] in IH |- *. by rewrite Hc, IH.
Qed.

(** Trimming a line of fields that starts with its first field: only
    the end of the last field can change. *)
Lemma trim_fields p0 l x :
  headOK p0 = true ->
  JS.trim (JS.join "," ((p0 :: l) ++ [x])%list)
  = JS.join "," ((p0 :: l) ++ [JS.trimEnd x])%list.
Proof.
  intros Hhead. rewrite !join_snoc by done. unfold JS.trim.
  rewrite StringFacts.trimStart_headOK.
  2: { destruct p0 as [|c r].
       - destruct l as [|y l]; [done|]. by rewrite StringFacts.join_cons.
       - by rewrite join_cons_char. }
  change ("," ++ x) with (String "," x).
  change ("," ++ JS.trimEnd x) with (String "," (JS.trimEnd x)).
  rewrite StringFacts.trimEnd_app; by rewrite trimEnd_cons_keep.
Qed.

Lemma countBonusPerMonth_present LocalTZA (disk : fileSystem)
    textFile driverID month content :
  disk !! textFile = Some content ->
  let found :=
    bonusRecordsOf driverID (completeRecords (map JS.trim (linesOf content))) in
  countBonusPerMonth LocalTZA disk textFile driverID month
  = Returns (if bool_decide (found <> [])
             then Z.of_nat (length (filter (inLocalMonth LocalTZA (JS.Number month))
                                           found))
             else -1).
Proof.
  intros Hfile found.
  unfold countBonusPerMonth, fs.existsSync, readLines, fs.readFileSync.
  rewrite Hfile, bool_decide_eq_true_2 by eauto. cbn [negb].
  rewrite countBonus_loop. cbn [orb]. fold found.
  by destruct (bool_decide (found <> [])).
Qed.

(** The fields [countBonusPerMonth] reads from a line [setBonus] wrote
    with the value [true]. *)
Lemma bonusLine_fields_read driverID date line :
  isBonusTarget driverID date (JS.split "," line) = true ->
  headOK driverID = true ->
  let r := JS.split "," (JS.trim (bonusLine driverID date true line)) in
  (10 <= length r)%nat
  /\ field 0 r = driverID /\ field 2 r = date /\ field 9 r = "true".
Proof.
  intros Ht Hhead. unfold bonusLine, bonusUpdate. rewrite Ht.
  change (boolToString true) with "true".
  apply bool_decide_eq_true in Ht as (Hlen & H0 & H2).
  pose proof (StringFacts.split_parts_no_sep "," line) as Hnc.
  set (parts := JS.split "," line) in *.
  assert (Hlen' : (10 <= length (<[9%nat:="true"]> parts))%nat)
    by (by rewrite length_insert).
  assert (Hnc' : Forall (fun p => noComma p = true) (<[9%nat:="true"]> parts))
    by (by apply Forall_insert).
  assert (H0' : <[9%nat:="true"]> parts !! 0%nat = Some driverID)
    by (by rewrite list_lookup_insert_ne).
  assert (H2' : <[9%nat:="true"]> parts !! 2%nat = Some date)
    by (by rewrite list_lookup_insert_ne).
  assert (H9' : <[9%nat:="true"]> parts !! 9%nat = Some "true")
    by (apply list_lookup_insert_eq; lia).
  clearbody parts. clear Hlen H0 H2 Hnc.
  set (parts' := <[9%nat:="true"]> parts) in *. clearbody parts'.
  assert (Hne : parts' <> []) by (destruct parts'; [cbn in Hlen'; lia | done]).
  destruct (exists_last Hne) as (l & x & ->).
  rewrite length_app in Hlen'. cbn in Hlen'.
  destruct l as [|p0 l]; [cbn in Hlen'; lia|].
  cbn in H0'. injection H0' as ->.
  rewrite trim_fields by done.
  apply Forall_app in Hnc' as [Hl Hx]. apply Forall_cons in Hx as [Hx _].
  rewrite StringFacts.split_join.
  2: { by destruct l. }
  2: { apply Forall_app. split; [done|]. constructor; [|done].
       by apply allChars_trimEnd. }
  cbv zeta. unfold field. split; [rewrite length_app; cbn; cbn in Hlen'; lia|].
  split; [done|].
  cbn in Hlen'.
  rewrite lookup_app_l in H2' by (cbn; lia).
  rewrite (lookup_app_l _ _ 2) by (cbn; lia). rewrite H2'.
  split; [done|].
  destruct (decide (length (driverID :: l) = 9%nat)) as [E9|N9].
  - rewrite lookup_app_r in H9' by lia. rewrite lookup_app_r by lia.
    rewrite E9 in *. cbn in H9' |- *. by injection H9' as ->.
  - rewrite lookup_app_l in H9' by (cbn in *; lia).
    rewrite lookup_app_l by (cbn in *; lia). by rewrite H9'.
Qed.

(** X15: once [setBonus] has set the flag of a record of the driver to
    [true], [countBonusPerMonth] for that driver and the month of that
    record's date (on the host's calendar) finds at least one bonus.
    The driverID is one that does not start with white space, since
    [countBonusPerMonth] trims each line and [setBonus] does not. *)
Theorem setBonus_then_countBonusPerMonth (LocalTZA : Z -> Z)
    (disk : fileSystem) (textFile driverID date month : string) :
  Exists (fun line => isBonusTarget driverID date (JS.split "," line) = true)
         (storeLines disk textFile) ->
  headOK driverID = true ->
  JS.seq (localMonth LocalTZA date) (JS.Number month) = true ->
  exists n,
    countBonusPerMonth LocalTZA (snd (setBonus disk textFile driverID date true))
                       textFile driverID month = Returns n
    /\ 1 <= n.
Proof.
  intros Hex Hhead Hmonth.
  apply Exists_exists in Hex as (line & Hin & Ht).
  pose proof (setBonus_storeLines driverID date true disk textFile) as Hlines.
  assert (Hfile : exists content,
             snd (setBonus disk textFile driverID date true) !! textFile
             = Some content).
  { rewrite setBonus_cases. cbn [snd].
    assert (existsb (fun line => isBonusTarget driverID date (JS.split "," line))
              (storeLines disk textFile) = true) as ->.
    { apply existsb_exists. exists line. split; [by apply list_elem_of_In | done]. }
    rewrite lookup_insert_eq. eauto. }
  destruct Hfile as [content Hfile].
  rewrite (countBonusPerMonth_present _ _ _ _ _ _ Hfile). cbv zeta.
  unfold storeLines in Hlines at 1. rewrite Hfile in Hlines. rewrite Hlines.
  destruct (bonusLine_fields_read driverID date line Ht Hhead)
    as (Hlen & H0 & H2 & H9).
  set (r := JS.split "," (JS.trim (bonusLine driverID date true line))) in *.
  set (found := bonusRecordsOf driverID _).
  assert (Hr : r ∈ filter (inLocalMonth LocalTZA (JS.Number month)) found).
  { apply list_elem_of_filter. split.
    - unfold inLocalMonth. by rewrite H2.
    - apply list_elem_of_filter. split; [done|].
      apply list_elem_of_filter. split; [done|].
      apply list_elem_of_In. rewrite !map_map.
      apply (in_map (fun l => JS.split "," (JS.trim (bonusLine driverID date true l)))).
      by apply list_elem_of_In. }
  assert (Hfound : found <> []).
  { intros Hnil. rewrite Hnil in Hr. by apply elem_of_nil in Hr. }
  rewrite bool_decide_eq_true_2 by done.
  eexists. split; [done|].
  destruct (filter _ found) as [|a rest]; [by apply elem_of_nil in Hr|].
  cbn [length]. lia.
Qed.

Lemma setBonus_then_countBonusPerMonth_witness :
  exists n,
    countBonusPerMonth Examples.utc
      (snd (setBonus Examples.disk "shifts.txt" "D1" "2025-01-05" true))
      "shifts.txt" "D1" "1" = Returns n
    /\ 1 <= n.
Proof.
  apply (setBonus_then_countBonusPerMonth Examples.utc Examples.disk
           "shifts.txt" "D1" "2025-01-05" "1").
  - apply Exists_cons_hd. vm_compute. reflexivity.
  - reflexivity.
  - vm_compute. reflexivity.
Defined.

(** ** The day off and the errors of [getRequiredHoursPerMonth] *)

Lemma getDayOffLoop_skip driverID before rest :
  absentFromRates driverID before ->
  getDayOffLoop driverID (before ++ rest) = getDayOffLoop driverID rest.
Proof.
  induction 1 as [|line before Hline _ IH]; [done|].
  cbn [app getDayOffLoop]. rewrite IH.
  pose proof (StringFacts.split_not_nil "," line) as Hne.
  unfold field in Hline. unfold JS.index.
  destruct (JS.split "," line) as [|p0 ps]; [done|]. cbn in Hline |- *.
  destruct (String.eqb_spec p0 driverID); [done | done].
Qed.

(** X16: [getDayOff] reads the first line of the rate file whose first
    field is the driverID and no later one: it returns that line's
    second field, trimmed and in lower case, and throws a TypeError when
    that line has no second field. *)
Theorem getDayOff_first_line_decides (disk : fileSystem)
    (rateFile driverID rates line : string) (before after : list string) :
  disk !! rateFile = Some rates ->
  linesOf rates = (before ++ line :: after)%list ->
  absentFromRates driverID before ->
  JS.split "," line !! 0%nat = Some driverID ->
  getDayOff disk rateFile driverID
  = match JS.split "," line !! 1%nat with
    | Some dayOff => Returns (JS.toLowerCase (JS.trim dayOff))
    | None => Throws TypeError
    end.
Proof.
  intros Hfile Hlines Habsent Hfirst.
  unfold getDayOff, readLines, fs.readFileSync. rewrite Hfile, Hlines.
  rewrite getDayOffLoop_skip by done. cbn [getDayOffLoop].
  unfold JS.index. rewrite Hfirst. cbn [jsStrictEqStr].
  by rewrite String.eqb_refl.
Qed.

Lemma getDayOff_first_line_decides_witness :
  getDayOff {[ "rates.txt" := "D2,Monday,100,1" ++ JS.newline
                              ++ "D1, Friday ,200,2" ++ JS.newline
                              ++ "D1,Sunday,300,3" ]}
            "rates.txt" "D1"
  = match JS.split "," "D1, Friday ,200,2" !! 1%nat with
    | Some dayOff => Returns (JS.toLowerCase (JS.trim dayOff))
    | None => Throws TypeError
    end.
Proof.
  apply (getDayOff_first_line_decides _ "rates.txt" "D1"
           ("D2,Monday,100,1" ++ JS.newline ++ "D1, Friday ,200,2" ++ JS.newline
            ++ "D1,Sunday,300,3")
           "D1, Friday ,200,2" ["D2,Monday,100,1"] ["D1,Sunday,300,3"]).
  - reflexivity.
  - reflexivity.
  - repeat constructor. vm_compute. discriminate.
  - reflexivity.
Defined.

Lemma getDayOffLoop_throws driverID rateLines e :
  getDayOffLoop driverID rateLines = Throws e ->
  e = TypeError
  /\ exists line, line ∈ rateLines /\ JS.split "," line = [driverID].
Proof.
  induction rateLines as [|line rest IH]; [discriminate|].
  cbn [getDayOffLoop]. unfold JS.index.
  pose proof (StringFacts.split_not_nil "," line) as Hne.
  destruct (JS.split "," line) as [|p0 ps] eqn:Hsplit; [done|].
  cbn [lookup list_lookup jsStrictEqStr].
  destruct (String.eqb_spec p0 driverID) as [->|Hp].
  - destruct ps as [|p1 ps]; cbn [lookup list_lookup]; [|discriminate].
    intros [= <-]. split; [done|]. exists line. split; [left | done].
  - intros Hrest. destruct (IH Hrest) as [-> (l & Hin & Hl)].
    split; [done|]. exists l. split; [by right | done].
Qed.

(** X17: [getRequiredHoursPerMonth] does not throw on a missing file.
    The one error it can throw is the TypeError of [getDayOff], and
    then the rate file holds a line that is the driverID alone, without
    a second field. *)
Theorem getRequiredHoursPerMonth_throws_only_TypeError (disk : fileSystem)
    (textFile rateFile driverID : string) (bonusCount month : number) (e : error) :
  getRequiredHoursPerMonth disk textFile rateFile bonusCount driverID month
  = Throws e ->
  e = TypeError
  /\ exists line, line ∈ storeLines disk rateFile
                  /\ JS.split "," line = [driverID].
Proof.
  unfold getRequiredHoursPerMonth, fs.existsSync, getDayOff, getUniqueDates,
    readLines, fs.readFileSync, storeLines.
  destruct (disk !! textFile) as [shifts|]; cycle 1.
  { rewrite bool_decide_eq_false_2 by (intros [? ?]; discriminate). discriminate. }
  destruct (disk !! rateFile) as [rates|]; cycle 1.
  { rewrite (bool_decide_eq_false_2 (is_Some None)) by (intros [? ?]; discriminate).
    rewrite orb_true_r. discriminate. }
  rewrite !bool_decide_eq_true_2 by eauto. cbn [negb orb].
  destruct (getDayOffLoop driverID (linesOf rates)) as [dayOffStr|e'] eqn:Hday.
  - discriminate.
  - intros [= <-]. by apply getDayOffLoop_throws.
Qed.

Lemma getRequiredHoursPerMonth_throws_only_TypeError_witness :
  TypeError = TypeError
  /\ exists line,
       line ∈ storeLines {[ "shifts.txt" := Examples.shifts;
                            "rates.txt" := "D1" ]} "rates.txt"
       /\ JS.split "," line = ["D1"].
Proof.
  apply (getRequiredHoursPerMonth_throws_only_TypeError
           {[ "shifts.txt" := Examples.shifts; "rates.txt" := "D1" ]}
           "shifts.txt" "rates.txt" "D1" (Num 0) (Num 1) TypeError).
  vm_compute. reflexivity.
Defined.

(** ** Further properties of the codec and of the monthly queries *)

(** X5: formatting and parsing are inverse to each other on durations:
    a formatted number of seconds parses to that number (zero for a
    negative one), a formatted time is a fixed point of parsing and
    formatting again, and [formatToTime] tells any two non-negative
    numbers apart. *)
Theorem formatToTime_parseToSeconds_roundtrip (n k : Z) (x : number) :
  parseToSeconds (formatToTime (Num n)) = Num (Z.max 0 n)
  /\ formatToTime (parseToSeconds (formatToTime x)) = formatToTime x
  /\ (formatToTime (Num n) = formatToTime (Num k) -> Z.max 0 n = Z.max 0 k).
Proof.
  split; [apply CodecFacts.parse_format|]. split.
  - rewrite parse_format_number. symmetry. apply formatToTime_clamp.
  - intros Heq. apply (f_equal parseToSeconds) in Heq.
    rewrite !CodecFacts.parse_format in Heq. congruence.
Qed.

(** X6: what [readLines] returns: no line is empty or holds a line
    feed, the first line does not start with white space and the last
    does not end with it. *)
Theorem readLines_lines_readable (disk : fileSystem) (filePath : string)
    (lines : list string) :
  readLines disk filePath = Returns lines -> readableLines lines.
Proof.
  unfold readLines, fs.readFileSync.
  destruct (disk !! filePath) as [content|]; [|discriminate].
  intros [= <-]. apply linesOf_readable.
Qed.

Lemma readLines_lines_readable_witness :
  readableLines (linesOf Examples.shifts).
Proof.
  apply (readLines_lines_readable Examples.disk "shifts.txt"). reflexivity.
Defined.

(** X18: [getUniqueDates] returns every date once: its result has no
    repeats, and its members are the dates of the driver's complete
    records of the month (on the UTC calendar). *)
Theorem getUniqueDates_no_repeats (disk : fileSystem)
    (textFile driverID content : string) (targetMonth : number) :
  disk !! textFile = Some content ->
  exists dates,
    getUniqueDates disk textFile targetMonth driverID = Returns dates
    /\ NoDup dates
    /\ forall d, d ∈ dates
                 <-> d ∈ driverDatesIn driverID targetMonth
                           (completeRecords (linesOf content)).
Proof.
  intros Hfile. unfold getUniqueDates, readLines, fs.readFileSync. rewrite Hfile.
  eexists. split; [done|]. rewrite uniqueDates_loop.
  destruct (setAdd_fold (driverDatesIn driverID targetMonth
                           (completeRecords (linesOf content))) [])
    as [Hnodup Hmem]; [constructor|].
  split; [done|]. intros d. rewrite Hmem, elem_of_nil. tauto.
Qed.

Lemma getUniqueDates_no_repeats_witness :
  exists dates,
    getUniqueDates Examples.disk "shifts.txt" (Num 1) "D1" = Returns dates
    /\ NoDup dates
    /\ forall d, d ∈ dates
                 <-> d ∈ driverDatesIn "D1" (Num 1)
                           (completeRecords (linesOf Examples.shifts)).
Proof.
  apply (getUniqueDates_no_repeats Examples.disk "shifts.txt" "D1"
           Examples.shifts (Num 1)).
  reflexivity.
Defined.

